(** * daikinskyport: the Daikin Skyport session client

    A shallow embedding of [custom_components/daikinskyport/daikinskyport.py]:
    the configuration file helper [config_from_file] and the class
    [DaikinSkyport] (token requests, device fetch and merge, command
    builders over [make_request]).

    Python values are JSON values; a dict is a finite map with string keys.
    The session object, the files it touches and the log of the HTTP requests
    it sent form one [world] that every method threads through; a method
    either returns, raises (the mutations made so far stay), or does not
    return (its recursion has no bound). *)

From Stdlib Require Import ZArith Lia PrimFloat SpecFloat FloatOps.
From stdpp Require Import gmap strings list fin_maps.

Set Warnings "-register-all".
Set Warnings "-inexact-float".
Local Open Scope string_scope.
Local Open Scope list_scope.
Local Open Scope Z_scope.

(** ** Python values *)

(** What [request.json()] and [json.loads] return, and what the callers pass:
    [None], [bool], [int], [float], [str], [list] and [dict] with [str] keys.
    A [float] is an IEEE 754 binary64 number, infinities and NaN included. *)
Inductive json : Type :=
  | JNull
  | JBool (b : bool)
  | JInt (z : Z)
  | JFloat (x : float)
  | JStr (s : string)
  | JList (l : list json)
  | JObj (m : gmap string json).

(** One cached thermostat: the dict of its fields. *)
Abbreviation device := (gmap string json).

Inductive exn : Type :=
  | RequestException
  | TypeError
  | KeyError
  | IndexError
  | AttributeError
  | JSONDecodeError.

(** The result of evaluating a Python expression that touches no state. *)
Inductive res (A : Type) : Type :=
  | Val (a : A)
  | Err (e : exn).
Arguments Val {A} a.
Arguments Err {A} e.

(** [if v:] *)
Definition py_truthy (v : json) : bool :=
  match v with
  | JNull => false
  | JBool b => b
  | JInt z => negb (z =? 0)
  | JFloat x => negb (PrimFloat.eqb x 0%float)
  | JStr s => negb (String.eqb s "")
  | JList l => match l with [] => false | _ => true end
  | JObj m => negb (bool_decide (dom m = ∅))
  end.

(** [v[k]] for a [str] key [k]: a dict is looked up, every other value
    refuses a string subscript. *)
Definition py_getitem (v : json) (k : string) : res json :=
  match v with
  | JObj m => match m !! k with Some x => Val x | None => Err KeyError end
  | _ => Err TypeError
  end.

(** [v[k] = x] for a [str] key [k]. *)
Definition py_setitem (v : json) (k : string) (x : json) : res device :=
  match v with
  | JObj m => Val (<[k := x]> m)
  | _ => Err TypeError
  end.

(** [l[i]] on a list, for an [int] [i]: negative indices count from the end. *)
Definition list_getitem {A} (l : list A) (i : Z) : option A :=
  let n := Z.of_nat (length l) in
  if (0 <=? i) && (i <? n) then l !! Z.to_nat i
  else if (- n <=? i) && (i <? 0) then l !! Z.to_nat (n + i)
  else None.

(** [l[v]] on a list, for any value [v]: [bool] is an [int]; anything else
    is not an index. *)
Definition py_index {A} (l : list A) (v : json) : res A :=
  match v with
  | JInt i => match list_getitem l i with Some x => Val x | None => Err IndexError end
  | JBool b => match list_getitem l (if b then 1 else 0) with
               | Some x => Val x | None => Err IndexError end
  | _ => Err TypeError
  end.

(** [s == v] where [s] is a [str]. *)
Definition str_eq (s : string) (v : json) : bool :=
  match v with
  | JStr t => String.eqb s t
  | _ => false
  end.

(** [prefix + v] where [prefix] is a [str] literal. *)
Definition str_concat (prefix : string) (v : json) : res string :=
  match v with
  | JStr s => Val (prefix +:+ s)
  | _ => Err TypeError
  end.

(** [for x in v]: the items the loop visits.  A dict yields its keys and a
    str its characters. *)
Fixpoint chars (s : string) : list json :=
  match s with
  | EmptyString => []
  | String c s' => JStr (String c EmptyString) :: chars s'
  end.

Definition py_iter (v : json) : res (list json) :=
  match v with
  | JList l => Val l
  | JObj m => Val (JStr <$> (map_to_list m).*1)
  | JStr s => Val (chars s)
  | _ => Err TypeError
  end.

(** ** [round(x, 1)] *)

(** The integer nearest to [n / d], a tie going to the even one. *)
Definition half_even (n d : Z) : Z :=
  let fl := n / d in
  match 2 * (n mod d) ?= d with
  | Lt => fl
  | Gt => fl + 1
  | Eq => if Z.even fl then fl else fl + 1
  end.

(** The [float] of sign [s] nearest to [n / d], a tie going to the even
    mantissa: what [float] makes of a decimal numeral. *)
Definition nearest_float (s : bool) (n : Z) (d : positive) : float :=
  match n with
  | Z.pos p =>
      let '(m, e, l) := SFdiv_core_binary prec emax (Z.pos p) 0 (Z.pos d) 0 in
      SF2Prim (binary_round_aux prec emax s m e l)
  | _ => SF2Prim (S754_zero s)
  end.

(** [round(x, 1)] on a [float]: the exact value [m * 2 ^ e] of [x] is
    rounded to one decimal digit, a tie going to the even digit, and the
    [float] nearest to that decimal comes back.  Infinities and NaN round to
    themselves, and a zero keeps its sign. *)
Definition float_round1 (x : float) : float :=
  match Prim2SF x with
  | S754_finite s m e =>
      let tenths := match e with
                    | Z.neg p => half_even (10 * Z.pos m) (2 ^ Z.pos p)
                    | _ => 10 * Z.pos m * 2 ^ e
                    end in
      nearest_float s tenths 10
  | _ => x
  end.

(** [round(v, 1)]: an [int] (and a [bool], which is one) comes back as the
    same [int]; a [float] is rounded to one decimal; other values have no
    [__round__]. *)
Definition py_round1 (v : json) : res json :=
  match v with
  | JInt z => Val (JInt z)
  | JBool b => Val (JInt (if b then 1 else 0))
  | JFloat x => Val (JFloat (float_round1 x))
  | _ => Err TypeError
  end.

(** ** The collaborators: HTTP transport and files *)

Inductive http_method : Type := GET | POST | PUT.

Record request : Type := Request {
  meth : http_method;
  url : string;
  headers : gmap string string;
  payload : option json                (* the [json=] argument *)
}.

(** [content] is [None] when the body does not decode as JSON. *)
Record response : Type := Response {
  status_code : Z;
  content : option json
}.

(** [requests.get/post/put] either raise [RequestException] or answer. *)
Inductive reply : Type :=
  | ConnectionFailed
  | Answer (r : response).

(** The transport decides every reply from the requests sent before and the
    request at hand. *)
Definition transport : Type := list request → request → reply.

(** [request.json()] *)
Definition resp_json (r : response) : res json :=
  match content r with
  | Some j => Val j
  | None => Err JSONDecodeError
  end.

(** A file holds the text [json.dumps] wrote for a document, or text that
    [json.loads] rejects. *)
Inductive text : Type :=
  | Doc (j : json)
  | Garbage (s : string).

Record file : Type := File {
  readable : bool;
  writable : bool;
  contents : text
}.

(** What the file system has at a path: a regular file; something [open]
    refuses (a directory); or nothing, in a place where no file can be
    created either (the directory it would go to is missing or may not be
    written).  At a path the map does not hold there is nothing, and a file
    can be created. *)
Inductive fnode : Type :=
  | FFile (f : file)
  | FDir
  | FNoDir.

(** ** The session and its world *)

(** The attributes [__init__] sets on every session it builds from a
    configuration that holds [EMAIL], and the collaborators' state.
    [user_password] is set only if the configuration held [PASSWORD], which
    the file [write_tokens_to_file] writes never does; [config] is set by
    [write_tokens_to_file] only. *)
Record world : Type := World {
  thermostats : list device;
  thermostatlist : json;
  authenticated : bool;
  user_email : json;
  user_password : option json;        (* unset unless the config held it *)
  access_token : json;
  refresh_token : json;
  file_based_config : bool;
  config_filename : string;
  config : option device;             (* [self.config], unset at first *)
  files : gmap string fnode;
  sent : list request                 (* every request handed to the transport *)
}.

Definition set_thermostats (c : list device) (w : world) : world :=
  World c (thermostatlist w) (authenticated w) (user_email w) (user_password w)
    (access_token w) (refresh_token w) (file_based_config w) (config_filename w)
    (config w) (files w) (sent w).
Definition set_thermostatlist (l : json) (w : world) : world :=
  World (thermostats w) l (authenticated w) (user_email w) (user_password w)
    (access_token w) (refresh_token w) (file_based_config w) (config_filename w)
    (config w) (files w) (sent w).
Definition set_authenticated (b : bool) (w : world) : world :=
  World (thermostats w) (thermostatlist w) b (user_email w) (user_password w)
    (access_token w) (refresh_token w) (file_based_config w) (config_filename w)
    (config w) (files w) (sent w).
Definition set_access_token (t : json) (w : world) : world :=
  World (thermostats w) (thermostatlist w) (authenticated w) (user_email w)
    (user_password w) t (refresh_token w) (file_based_config w) (config_filename w)
    (config w) (files w) (sent w).
Definition set_refresh_token (t : json) (w : world) : world :=
  World (thermostats w) (thermostatlist w) (authenticated w) (user_email w)
    (user_password w) (access_token w) t (file_based_config w) (config_filename w)
    (config w) (files w) (sent w).
Definition set_config (c : option device) (w : world) : world :=
  World (thermostats w) (thermostatlist w) (authenticated w) (user_email w)
    (user_password w) (access_token w) (refresh_token w) (file_based_config w)
    (config_filename w) c (files w) (sent w).
Definition set_files (fs : gmap string fnode) (w : world) : world :=
  World (thermostats w) (thermostatlist w) (authenticated w) (user_email w)
    (user_password w) (access_token w) (refresh_token w) (file_based_config w)
    (config_filename w) (config w) fs (sent w).
Definition set_sent (l : list request) (w : world) : world :=
  World (thermostats w) (thermostatlist w) (authenticated w) (user_email w)
    (user_password w) (access_token w) (refresh_token w) (file_based_config w)
    (config_filename w) (config w) (files w) l.

(** ** Methods as state transformers *)

Inductive outcome (A : Type) : Type :=
  | Ret (a : A)                        (* the call returned [a] *)
  | Raise (e : exn)                    (* the call raised [e] *)
  | Diverge.                           (* the recursion did not end *)
Arguments Ret {A} a.
Arguments Raise {A} e.
Arguments Diverge {A}.

Definition M (A : Type) : Type := world → outcome A * world.

Definition ret {A} (a : A) : M A := λ w, (Ret a, w).
Definition raise {A} (e : exn) : M A := λ w, (Raise e, w).
Definition diverge {A} : M A := λ w, (Diverge, w).
Definition bind {A B} (m : M A) (k : A → M B) : M B :=
  λ w, match m w with
       | (Ret a, w') => k a w'
       | (Raise e, w') => (Raise e, w')
       | (Diverge, w') => (Diverge, w')
       end.
Definition gets {A} (f : world → A) : M A := λ w, (Ret (f w), w).
Definition modify (f : world → world) : M unit := λ w, (Ret tt, f w).
Definition lift {A} (r : res A) : M A :=
  match r with
  | Val a => ret a
  | Err e => raise e
  end.

(** [self.name] for an attribute that may be unset. *)
Definition attr {A} (f : world → option A) : M A :=
  λ w, match f w with
       | Some a => (Ret a, w)
       | None => (Raise AttributeError, w)
       end.

Declare Scope py_scope.
Delimit Scope py_scope with py.
Notation "x <- m ;; k" := (bind m (λ x, k))
  (at level 100, m at next level, right associativity) : py_scope.
Notation "m ;; k" := (bind m (λ _, k))
  (at level 100, right associativity) : py_scope.
Local Open Scope py_scope.

(** [for x in l: ...] with the local variables the body assigns as [s]. *)
Fixpoint for_fold {A S} (l : list A) (body : A → S → M S) (s : S) : M S :=
  match l with
  | [] => ret s
  | x :: l' => s' <- body x s ;; for_fold l' body s'
  end.

Definition for_each {A} (l : list A) (body : A → M unit) : M unit :=
  for_fold l (λ x _, body x) tt.

(** ** [config_from_file] *)

(** [open(filename, 'w')] and [fdesc.write(text)]: [None] is [IOError].  A
    file that is not there is created where the directory lets it. *)
Definition fs_write (fs : gmap string fnode) (filename : string) (t : text)
  : option (gmap string fnode) :=
  match fs !! filename with
  | None => Some (<[filename := FFile (File true true t)]> fs)
  | Some (FFile f) =>
      if writable f then Some (<[filename := FFile (File (readable f) true t)]> fs)
      else None
  | Some FDir => None
  | Some FNoDir => None
  end.

(** [os.path.isfile(filename)] *)
Definition isfile (fs : gmap string fnode) (filename : string) : bool :=
  match fs !! filename with
  | Some (FFile _) => true
  | _ => false
  end.

(** [open(filename, 'r')] and [fdesc.read()]: [None] is [IOError]. *)
Definition fs_read (fs : gmap string fnode) (filename : string) : option text :=
  match fs !! filename with
  | Some (FFile f) => if readable f then Some (contents f) else None
  | _ => None
  end.

(** [json.loads(text)] *)
Definition json_loads (t : text) : res json :=
  match t with
  | Doc j => Val j
  | Garbage _ => Err JSONDecodeError
  end.

(** [config=None] is [JNull]. *)
Definition config_from_file (filename : string) (config : json) : M json :=
  if py_truthy config then
    fs <- gets files ;;
    match fs_write fs filename (Doc config) with
    | None => ret (JBool false)
    | Some fs' => modify (set_files fs') ;; ret (JBool true)
    end
  else
    fs <- gets files ;;
    if isfile fs filename then
      match fs_read fs filename with
      | None => ret (JBool false)
      | Some t => lift (json_loads t)
      end
    else ret (JObj ∅).

(** ** The class [DaikinSkyport] *)

Definition login_url : string := "https://api.daikinskyport.com/users/auth/login".
Definition token_url : string := "https://api.daikinskyport.com/users/auth/token".
Definition devices_url : string := "https://api.daikinskyport.com/devices".
Definition device_url_prefix : string := "https://api.daikinskyport.com/deviceData/".

Definition token_header : gmap string string :=
  {[ "Accept" := "application/json"; "Content-Type" := "application/json" ]}.

(** [{'Content-Type': ..., 'Authorization': 'Bearer ' + self.access_token}] *)
Definition auth_header : M (gmap string string) :=
  tok <- gets access_token ;;
  bearer <- lift (str_concat "Bearer " tok) ;;
  ret {[ "Content-Type" := "application/json;charset=UTF-8";
         "Authorization" := bearer ]}.

Section Session.

Variable net : transport.

(** One call of [requests]: the request is logged and the transport
    replies. *)
Definition http (rq : request) : M reply :=
  λ w, (Ret (net (sent w) rq), set_sent (sent w ++ [rq]) w).

Definition write_tokens_to_file : M unit :=
  at_ <- gets access_token ;;
  rt <- gets refresh_token ;;
  em <- gets user_email ;;
  let config : device :=
    <["EMAIL" := em]> (<["REFRESH_TOKEN" := rt]> (<["ACCESS_TOKEN" := at_]> ∅)) in
  fb <- gets file_based_config ;;
  if fb then
    fn <- gets config_filename ;;
    config_from_file fn (JObj config) ;; ret tt
  else modify (set_config (Some config)).

Definition request_tokens : M unit :=
  em <- gets user_email ;;
  pw <- attr user_password ;;
  let data := JObj {[ "email" := em; "password" := pw ]} in
  r <- http (Request POST login_url token_header (Some data)) ;;
  match r with
  | ConnectionFailed => ret tt
  | Answer rsp =>
      if status_code rsp =? 200 then
        j <- lift (resp_json rsp) ;;
        a <- lift (py_getitem j "accessToken") ;;
        modify (set_access_token a) ;;
        j' <- lift (resp_json rsp) ;;
        t <- lift (py_getitem j' "refreshToken") ;;
        modify (set_refresh_token t) ;;
        match t with
        | JNull => ret tt
        | _ => write_tokens_to_file
        end
      else ret tt
  end.

(** Returns [True] or, falling off the end, [None]. *)
Definition refresh_tokens : M json :=
  em <- gets user_email ;;
  rt <- gets refresh_token ;;
  let data := JObj {[ "email" := em; "refreshToken" := rt ]} in
  r <- http (Request POST token_url token_header (Some data)) ;;
  match r with
  | ConnectionFailed => raise RequestException
  | Answer rsp =>
      if status_code rsp =? 200 then
        j <- lift (resp_json rsp) ;;
        a <- lift (py_getitem j "accessToken") ;;
        modify (set_access_token a) ;;
        write_tokens_to_file ;;
        ret (JBool true)
      else request_tokens ;; ret JNull
  end.

(** [deviceid] is a [str]: the call site hands over nothing else (see
    [get_thermostats_body]).  [fuel] bounds the depth of the self-calls. *)
Fixpoint get_thermostat_info (fuel : nat) (deviceid : string) : M json :=
  match fuel with
  | O => diverge
  | S fuel' =>
      let url := device_url_prefix +:+ deviceid in
      header <- auth_header ;;
      r <- http (Request GET url header None) ;;
      match r with
      | ConnectionFailed => ret JNull
      | Answer rsp =>
          if status_code rsp =? 200 then
            modify (set_authenticated true) ;;
            lift (resp_json rsp)
          else
            modify (set_authenticated false) ;;
            ok <- refresh_tokens ;;
            if py_truthy ok then get_thermostat_info fuel' deviceid
            else ret JNull
      end
  end.

(** One round of the inner loop of [get_thermostats], with [overwrite] as
    its local:
    [if thermostat['id'] == self.thermostats[index]['id']: ...]. *)
Definition scan_step (deviceid : string) (thermostat_info : device)
    (index : nat) (overwrite : bool) : M bool :=
  cache <- gets thermostats ;;
  match cache !! index with
  | None => raise IndexError
  | Some entry =>
      eid <- lift (py_getitem (JObj entry) "id") ;;
      if str_eq deviceid eid then
        modify (set_thermostats (<[index := thermostat_info]> cache)) ;;
        ret true
      else ret overwrite
  end.

(** [for index in range(len(self.thermostats)): ...] *)
Definition scan_cache (deviceid : string) (thermostat_info : device) : M bool :=
  n <- gets (λ w, length (thermostats w)) ;;
  for_fold (seq 0 n) (scan_step deviceid thermostat_info) false.

(** The body of [for thermostat in self.thermostatlist].  The first use of
    [thermostat['id']] is as [deviceid] in [get_thermostat_info], whose
    ['https://.../deviceData/' + deviceid] raises [TypeError] unless it is
    a [str]; from there on it is that [str]. *)
Definition get_thermostats_body (fuel : nat) (thermostat : json) : M unit :=
  tid <- lift (py_getitem thermostat "id") ;;
  match tid with
  | JStr deviceid =>
      got <- get_thermostat_info fuel deviceid ;;
      name <- lift (py_getitem thermostat "name") ;;
      named <- lift (py_setitem got "name" name) ;;
      let thermostat_info := <["id" := JStr deviceid]> named in
      overwrite <- scan_cache deviceid thermostat_info ;;
      if overwrite then ret tt
      else
        cache <- gets thermostats ;;
        modify (set_thermostats (cache ++ [thermostat_info]))
  | _ => raise TypeError
  end.

(** Returns [self.thermostats] or [None]. *)
Fixpoint get_thermostats (fuel : nat) : M (option (list device)) :=
  match fuel with
  | O => diverge
  | S fuel' =>
      header <- auth_header ;;
      r <- http (Request GET devices_url header None) ;;
      match r with
      | ConnectionFailed => ret None
      | Answer rsp =>
          if status_code rsp =? 200 then
            modify (set_authenticated true) ;;
            j <- lift (resp_json rsp) ;;
            modify (set_thermostatlist j) ;;
            items <- lift (py_iter j) ;;
            for_each items (get_thermostats_body (S fuel')) ;;
            cache <- gets thermostats ;;
            ret (Some cache)
          else
            modify (set_authenticated false) ;;
            ok <- refresh_tokens ;;
            if py_truthy ok then get_thermostats fuel'
            else ret None
      end
  end.

Definition update (fuel : nat) : M unit :=
  get_thermostats fuel ;; ret tt.

(** [get_thermostat(index)] *)
Definition get_thermostat (index : json) : M device :=
  cache <- gets thermostats ;;
  lift (py_index cache index).

(** Returns the response or [None].  The retried call is written as in the
    source: [body] goes where [index] was and [deviceID] where [body] was. *)
Fixpoint make_request (fuel : nat) (index body : json) (log_msg_action : string)
    (retry_count : Z) : M (option response) :=
  match fuel with
  | O => diverge
  | S fuel' =>
      cache <- gets thermostats ;;
      entry <- lift (py_index cache index) ;;
      deviceID <- lift (py_getitem (JObj entry) "id") ;;
      url <- lift (str_concat device_url_prefix deviceID) ;;
      header <- auth_header ;;
      r <- http (Request PUT url header (Some body)) ;;
      match r with
      | ConnectionFailed => ret None
      | Answer rsp =>
          if status_code rsp =? 200 then ret (Some rsp)
          else
            expired <-
              (if (status_code rsp =? 401) && (retry_count =? 0) then
                 j <- lift (resp_json rsp) ;;
                 e <- lift (py_getitem j "error") ;;
                 ret (str_eq "authorization_expired" e)
               else ret false) ;;
            if expired then
              ok <- refresh_tokens ;;
              if py_truthy ok then
                make_request fuel' body deviceID log_msg_action (retry_count + 1)
              else ret None
            else
              (* the log line formats [request.json()] *)
              lift (resp_json rsp) ;;
              ret None
      end
  end.

End Session.

(** ** Command builders *)

(** A dict display [{k1: v1, k2: v2, ...}]: the pairs are stored in order, a
    later one replacing an earlier one under the same key. *)
Definition py_dict (kvs : list (string * json)) : device :=
  foldl (λ m kv, <[kv.1 := kv.2]> m) ∅ kvs.

(** [v + suffix] where [suffix] is a [str] literal. *)
Definition str_append (v : json) (suffix : string) : res string :=
  match v with
  | JStr s => Val (s +:+ suffix)
  | _ => Err TypeError
  end.

(** [self.thermostats[index][key]] *)
Definition cached (index : json) (key : string) : M json :=
  cache <- gets thermostats ;;
  entry <- lift (py_index cache index) ;;
  lift (py_getitem (JObj entry) key).

(** [if arg is None: arg = default] *)
Definition default_to (arg : json) (default : M json) : M json :=
  match arg with
  | JNull => default
  | _ => ret arg
  end.

(** The builders call [make_request] with [retry_count=0]; two nested calls
    are the most it makes then (see [make_request_depth]). *)
Definition retry_depth : nat := 2.

Definition set_hvac_mode_body (hvac_mode : json) : device :=
  py_dict [("mode", hvac_mode)].

Definition set_thermostat_schedule_body
    (prefix start enable label heating cooling : json) : M device :=
  k_time <- lift (str_append prefix "Time") ;;
  k_enabled <- lift (str_append prefix "Enabled") ;;
  k_label <- lift (str_append prefix "Label") ;;
  k_hsp <- lift (str_append prefix "hsp") ;;
  k_csp <- lift (str_append prefix "csp") ;;
  ret (py_dict [(k_time, start); (k_enabled, enable); (k_label, label);
                (k_hsp, heating); (k_csp, cooling)]).

Definition set_fan_mode_body (fan_mode : json) : device :=
  py_dict [("fanCirculate", fan_mode)].

Definition set_fan_speed_body (fan_speed : json) : device :=
  py_dict [("fanCirculateSpeed", fan_speed)].

Definition set_fan_clean_body (active : json) : device :=
  py_dict [("oneCleanFanActive", active)].

Definition set_temp_hold_body (index cool_temp heat_temp hold_duration : json)
  : M device :=
  hold_duration <- default_to hold_duration (cached index "schedOverrideDuration") ;;
  cool_temp <- default_to cool_temp (cached index "cspHome") ;;
  heat_temp <- default_to heat_temp (cached index "hspHome") ;;
  hsp <- lift (py_round1 heat_temp) ;;
  csp <- lift (py_round1 cool_temp) ;;
  ret (py_dict [("hspHome", hsp); ("cspHome", csp); ("schedOverride", JInt 1);
                ("schedOverrideDuration", hold_duration)]).

Definition set_permanent_hold_body (index cool_temp heat_temp : json) : M device :=
  cool_temp <- default_to cool_temp (cached index "cspHome") ;;
  heat_temp <- default_to heat_temp (cached index "hspHome") ;;
  hsp <- lift (py_round1 heat_temp) ;;
  csp <- lift (py_round1 cool_temp) ;;
  ret (py_dict [("hspHome", hsp); ("cspHome", csp); ("schedOverride", JInt 0);
                ("schedEnabled", JBool false)]).

Definition set_away_body (index mode heat_temp cool_temp : json) : M device :=
  heat_temp <- default_to heat_temp
                 (v <- cached index "hspAway" ;; lift (py_round1 v)) ;;
  cool_temp <- default_to cool_temp
                 (v <- cached index "cspAway" ;; lift (py_round1 v)) ;;
  ret (py_dict [("geofencingAway", mode); ("hspAway", heat_temp);
                ("cspAway", cool_temp)]).

Definition resume_program_body : device :=
  py_dict [("schedEnabled", JBool true); ("schedOverride", JInt 0);
           ("geofencingAway", JBool false)].

Definition set_fan_schedule_body (start stop interval speed : json) : device :=
  py_dict [("fanCirculateStart", start); ("fanCirculateStop", stop);
           ("fanCirculateDuration", interval); ("fanCirculateSpeed", speed)].

Definition set_night_mode_body (start stop enable : json) : device :=
  py_dict [("nightModeStart", start); ("nightModeStop", stop);
           ("nightModeEnabled", enable)].

Definition set_humidity_body (index humidity_low humidity_high : json) : M device :=
  humidity_low <- default_to humidity_low (cached index "humSP") ;;
  humidity_high <- default_to humidity_high (cached index "dehumSP") ;;
  ret (py_dict [("dehumSP", humidity_high); ("humSP", humidity_low)]).

Section Commands.

Variable net : transport.

Definition set_hvac_mode (index hvac_mode : json) : M (option response) :=
  make_request net retry_depth index (JObj (set_hvac_mode_body hvac_mode))
    "set HVAC mode" 0.

Definition set_thermostat_schedule
    (index prefix start enable label heating cooling : json)
  : M (option response) :=
  body <- set_thermostat_schedule_body prefix start enable label heating cooling ;;
  make_request net retry_depth index (JObj body) "set thermostat schedule" 0.

Definition set_fan_mode (index fan_mode : json) : M (option response) :=
  make_request net retry_depth index (JObj (set_fan_mode_body fan_mode))
    "set fan mode" 0.

Definition set_fan_speed (index fan_speed : json) : M (option response) :=
  make_request net retry_depth index (JObj (set_fan_speed_body fan_speed))
    "set fan speed" 0.

Definition set_fan_clean (index active : json) : M (option response) :=
  make_request net retry_depth index (JObj (set_fan_clean_body active))
    "set fan clean mode" 0.

Definition set_temp_hold (index cool_temp heat_temp hold_duration : json)
  : M (option response) :=
  body <- set_temp_hold_body index cool_temp heat_temp hold_duration ;;
  make_request net retry_depth index (JObj body) "set hold temp" 0.

Definition set_permanent_hold (index cool_temp heat_temp : json)
  : M (option response) :=
  body <- set_permanent_hold_body index cool_temp heat_temp ;;
  make_request net retry_depth index (JObj body) "set permanent hold" 0.

Definition set_away (index mode heat_temp cool_temp : json)
  : M (option response) :=
  body <- set_away_body index mode heat_temp cool_temp ;;
  make_request net retry_depth index (JObj body) "set away mode" 0.

Definition resume_program (index : json) : M (option response) :=
  make_request net retry_depth index (JObj resume_program_body)
    "resume program" 0.

Definition set_fan_schedule (index start stop interval speed : json)
  : M (option response) :=
  make_request net retry_depth index
    (JObj (set_fan_schedule_body start stop interval speed)) "set fan schedule" 0.

Definition set_night_mode (index start stop enable : json)
  : M (option response) :=
  make_request net retry_depth index
    (JObj (set_night_mode_body start stop enable)) "set night mode" 0.

Definition set_humidity (index humidity_low humidity_high : json)
  : M (option response) :=
  body <- set_humidity_body index humidity_low humidity_high ;;
  make_request net retry_depth index (JObj body) "set humidity level" 0.

End Commands.

(** The twelve command builders as one type of calls. *)
Inductive command : Type :=
  | SetHvacMode (index hvac_mode : json)
  | SetThermostatSchedule (index prefix start enable label heating cooling : json)
  | SetFanMode (index fan_mode : json)
  | SetFanSpeed (index fan_speed : json)
  | SetFanClean (index active : json)
  | SetTempHold (index cool_temp heat_temp hold_duration : json)
  | SetPermanentHold (index cool_temp heat_temp : json)
  | SetAway (index mode heat_temp cool_temp : json)
  | ResumeProgram (index : json)
  | SetFanSchedule (index start stop interval speed : json)
  | SetNightMode (index start stop enable : json)
  | SetHumidity (index humidity_low humidity_high : json).

Definition run_command (net : transport) (c : command) : M (option response) :=
  match c with
  | SetHvacMode i m => set_hvac_mode net i m
  | SetThermostatSchedule i p s e l h c =>
      set_thermostat_schedule net i p s e l h c
  | SetFanMode i m => set_fan_mode net i m
  | SetFanSpeed i s => set_fan_speed net i s
  | SetFanClean i a => set_fan_clean net i a
  | SetTempHold i c h d => set_temp_hold net i c h d
  | SetPermanentHold i c h => set_permanent_hold net i c h
  | SetAway i m h c => set_away net i m h c
  | ResumeProgram i => resume_program net i
  | SetFanSchedule i a b c d => set_fan_schedule net i a b c d
  | SetNightMode i a b e => set_night_mode net i a b e
  | SetHumidity i l h => set_humidity net i l h
  end.

(** ** Notions the properties are stated with *)

(** A method keeps a relation between the world before and after it,
    whatever its outcome. *)
Definition preserves {A} (R : relation world) (m : M A) : Prop :=
  ∀ w, R w (m w).2.

Definition same_cache : relation world :=
  λ w w', thermostats w' = thermostats w.

Definition log_grows : relation world :=
  λ w w', sent w `prefix_of` sent w'.

(** The requests a call sent to [u]. *)
Definition attempts (u : string) (w w' : world) : nat :=
  length (filter (λ rq, url rq = u) (drop (length (sent w)) (sent w'))).

(** The first request a call sent. *)
Definition first_sent (w w' : world) : option request :=
  sent w' !! length (sent w).

(** The cache entry carries the id [s]: the test of the inner loop. *)
Definition has_id (s : string) (entry : device) : bool :=
  match entry !! "id" with
  | Some v => str_eq s v
  | None => false
  end.

(** Upsert as the specification words it: replace in place where the id is
    already present, append otherwise. *)
Definition upsert (cache : list device) (s : string) (info : device) : list device :=
  if existsb (has_id s) cache
  then (λ entry, if has_id s entry then info else entry) <$> cache
  else cache ++ [info].

Definition upsert_all (cache : list device) (fetched : list (string * device))
  : list device :=
  foldl (λ c p, upsert c p.1 p.2) cache fetched.

(** The transport answered a GET of [u] with status 200 and body [j]. *)
Definition served (net : transport) (u : string) (j : json) : Prop :=
  ∃ log hdr rsp, net log (Request GET u hdr None) = Answer rsp
                 ∧ status_code rsp = 200 ∧ content rsp = Some j.

(** [p] is what the loop body builds for the listed [thermostat]: the detail
    payload of its id, with [name] and [id] set from the listing. *)
Definition merged (net : transport) (thermostat : json) (p : string * device) : Prop :=
  ∃ name detail,
    py_getitem thermostat "id" = Val (JStr p.1)
    ∧ py_getitem thermostat "name" = Val name
    ∧ served net (device_url_prefix +:+ p.1) (JObj detail)
    ∧ p.2 = <["id" := JStr p.1]> (<["name" := name]> detail).

(** The remote data is fixed: the listing and each device's detail are the
    same at every request. *)
Definition serves (net : transport) (listing : json) (detail : string → json) : Prop :=
  (∀ log hdr, net log (Request GET devices_url hdr None)
              = Answer (Response 200 (Some listing)))
  ∧ (∀ log hdr s, net log (Request GET (device_url_prefix +:+ s) hdr None)
                  = Answer (Response 200 (Some (detail s)))).

(** The string id of an entry, and the ids of the cache in cache order. *)
Definition id_of (entry : device) : option string :=
  match entry !! "id" with
  | Some (JStr s) => Some s
  | _ => None
  end.

Definition ids (cache : list device) : list string := omap id_of cache.

(** Every entry has a [str] id. *)
Definition str_keyed (cache : list device) : Prop :=
  Forall (λ entry, is_Some (id_of entry)) cache.

(** The ids of [remote] not yet [seen], each once, in order of appearance. *)
Fixpoint fresh_ids (seen remote : list string) : list string :=
  match remote with
  | [] => []
  | s :: remote' =>
      if bool_decide (s ∈ seen) then fresh_ids seen remote'
      else s :: fresh_ids (seen ++ [s]) remote'
  end.

(** A sequence of [get_thermostats] calls, each returning the cache. *)
Inductive fetches : world → world → Prop :=
  | fetches_refl w : fetches w w
  | fetches_step w net fuel cache w1 w2 :
      get_thermostats net fuel w = (Ret (Some cache), w1) →
      fetches w1 w2 →
      fetches w w2.

(** The token and its log are out of reach of the configuration store. *)
Definition same_session : relation world :=
  λ w w', access_token w' = access_token w ∧ sent w' = sent w.

(** Every entry has an ["id"] key: the inner loop reads it. *)
Definition keyed (cache : list device) : Prop :=
  Forall (λ entry : device, is_Some (entry !! "id")) cache.

(** The payload [p.2] carries the id [p.1] it was fetched for. *)
Definition tagged (p : string * device) : Prop := p.2 !! "id" = Some (JStr p.1).

(** What an entry ends up as when the payloads of [fetched] pass over it in
    order. *)
Definition settle (fetched : list (string * device)) (entry : device) : device :=
  foldl (λ e p, if has_id p.1 e then p.2 else e) entry fetched.

(** A method always returns or raises: its recursion ends within the fuel
    it is given. *)
Definition settles {A} (m : M A) : Prop := ∀ w, (m w).1 ≠ Diverge.

(** [y] is what [x] becomes with more fuel: the same, unless [x] ran out. *)
Definition extends {A} (x y : outcome A * world) : Prop :=
  x.1 = Diverge ∨ x = y.

(** The index a command is called with. *)
Definition command_index (c : command) : json :=
  match c with
  | SetHvacMode i _ | SetThermostatSchedule i _ _ _ _ _ _ | SetFanMode i _
  | SetFanSpeed i _ | SetFanClean i _ | SetTempHold i _ _ _
  | SetPermanentHold i _ _ | SetAway i _ _ _ | ResumeProgram i
  | SetFanSchedule i _ _ _ _ | SetNightMode i _ _ _ | SetHumidity i _ _ => i
  end.

(** A computation only reads the session. *)
Definition reads_only {A} (m : M A) : Prop := ∀ w, (m w).2 = w.

(** The session is as authenticated as before and its cache is the same. *)
Definition same_standing : relation world :=
  λ w w', authenticated w' = authenticated w ∧ thermostats w' = thermostats w.

(** The credentials and the place of the configuration are as before, and
    no file has changed but the session's own configuration file -- none at
    all when the session is not file based. *)
Definition writes_own_file : relation world :=
  λ w w',
    user_email w' = user_email w
    ∧ user_password w' = user_password w
    ∧ file_based_config w' = file_based_config w
    ∧ config_filename w' = config_filename w
    ∧ ∀ path, path ≠ config_filename w ∨ file_based_config w = false →
              files w' !! path = files w !! path.

(** The id values of the cache, position by position. *)
Definition id_values (cache : list device) : list (option json) :=
  (λ entry : device, entry !! "id") <$> cache.

(** The cache has grown at its end only, and no entry has changed its id. *)
Definition entries_kept : relation world :=
  λ w w', id_values (thermostats w) `prefix_of` id_values (thermostats w').

(** The value a builder goes on with for an argument: the argument itself,
    or the field [key] of the cached entry where the argument is [None]. *)
Definition taken (arg : json) (entry : device) (key : string) (v : json) : Prop :=
  match arg with
  | JNull => entry !! key = Some v
  | _ => v = arg
  end.

(** What [set_away] goes on with: the argument as it is, or the cached field
    rounded to one decimal where the argument is [None]. *)
Definition taken_away (arg : json) (entry : device) (key : string) (v : json)
  : Prop :=
  match arg with
  | JNull => ∃ c, entry !! key = Some c ∧ py_round1 c = Val v
  | _ => v = arg
  end.

(** The fieldset holds [round(v, 1)] under [key]. *)
Definition holds_rounded (body : device) (key : string) (v : json) : Prop :=
  ∃ r, py_round1 v = Val r ∧ body !! key = Some r.

(** The first request [call] sends from [w] is the PUT of the fieldset
    [body] to the endpoint of the thermostat with id [s]. *)
Definition transmits (call : M (option response)) (w : world) (s : string)
    (body : device) : Prop :=
  ∃ hdr, first_sent w (call w).2
         = Some (Request PUT (device_url_prefix +:+ s) hdr (Some (JObj body))).

(** A path [open(filename, 'w')] refuses: a file that may not be written, a
    directory, or nothing where no file can be created. *)
Definition refuses_write (fs : gmap string fnode) (filename : string) : Prop :=
  match fs !! filename with
  | None => False
  | Some (FFile f) => writable f = false
  | Some FDir => True
  | Some FNoDir => True
  end.

(** ** A sample session

    One cached thermostat, an access token, a configuration file. *)

Definition home : device :=
  py_dict [("id", JStr "0000-1111"); ("name", JStr "Home");
           ("hspHome", JFloat 20.04); ("cspHome", JFloat 24.55);
           ("schedOverrideDuration", JInt 60);
           ("hspAway", JFloat 16.66); ("cspAway", JInt 28);
           ("humSP", JInt 40); ("dehumSP", JInt 55)].

Definition sample_world : world :=
  {| thermostats := [home];
     thermostatlist := JList [];
     authenticated := true;
     user_email := JStr "user@example.org";
     user_password := Some (JStr "secret");
     access_token := JStr "token-1";
     refresh_token := JStr "refresh-1";
     file_based_config := true;
     config_filename := "daikinskyport.conf";
     config := None;
     files := ∅;
     sent := [] |}.

(** The same session before its first fetch. *)
Definition fresh_world : world := set_thermostats [] sample_world.


(** A transport that is down. *)
Definition offline : transport := λ _ _, ConnectionFailed.

(** The sample session with a configuration file already on disk. *)
Definition stored_config : device :=
  py_dict [("EMAIL", JStr "user@example.org"); ("PASSWORD", JStr "secret")].

Definition stored_world : world :=
  set_files {[ "daikinskyport.conf" := FFile (File true true (Doc (JObj stored_config))) ]}
    sample_world.

(** A path [config_from_file] can write and read back: nothing is there yet
    and a file can be created, or a regular file that may be read and
    written. *)
Definition usable (fs : gmap string fnode) (filename : string) : Prop :=
  match fs !! filename with
  | None => True
  | Some (FFile f) => readable f = true ∧ writable f = true
  | Some FDir => False
  | Some FNoDir => False
  end.

(** ** Sample transports *)

Definition expired_reply : reply :=
  Answer (Response 401 (Some (JObj {[ "error" := JStr "authorization_expired" ]}))).

Definition new_token_reply : reply :=
  Answer (Response 200 (Some (JObj {[ "accessToken" := JStr "token-2" ]}))).

(** Every device request is answered "authorization expired"; every token
    refresh succeeds. *)
Definition always_expired : transport :=
  λ _ rq, match meth rq with
          | POST => new_token_reply
          | _ => expired_reply
          end.

(** Device requests are answered "authorization expired" and the token
    endpoints cannot be reached. *)
Definition refresh_down : transport :=
  λ _ rq, match meth rq with
          | POST => ConnectionFailed
          | _ => expired_reply
          end.

(** The device list is served, the device details cannot be reached. *)
Definition details_down : transport :=
  λ _ rq, if String.eqb (url rq) devices_url
          then Answer (Response 200 (Some (JList
                 [JObj {[ "id" := JStr "0000-1111"; "name" := JStr "Home" ]}])))
          else ConnectionFailed.

(** The sample session whose configuration file is not JSON. *)
Definition corrupt_world : world :=
  set_files {[ "daikinskyport.conf" := FFile (File true true (Garbage "{")) ]}
    sample_world.

(** [s] without its prefix [p], when it has it. *)
Fixpoint strip_prefix (p s : string) : option string :=
  match p with
  | EmptyString => Some s
  | String a p' =>
      match s with
      | String b s' => if Ascii.eqb a b then strip_prefix p' s' else None
      | EmptyString => None
      end
  end.

(** A vendor whose data does not change: GET /devices answers [listing] and
    GET /deviceData/<id> answers [detail id]; anything else is refused. *)
Definition fixed_remote (listing : json) (detail : string → json) : transport :=
  λ _ rq,
    match meth rq with
    | GET =>
        if String.eqb (url rq) devices_url
        then Answer (Response 200 (Some listing))
        else match strip_prefix device_url_prefix (url rq) with
             | Some s => Answer (Response 200 (Some (detail s)))
             | None => Answer (Response 404 None)
             end
    | _ => Answer (Response 405 None)
    end.

Definition sample_listing : json :=
  JList [JObj (py_dict [("id", JStr "2222-3333"); ("name", JStr "Cabin")]);
         JObj (py_dict [("id", JStr "0000-1111"); ("name", JStr "Home")])].

Definition sample_detail (deviceid : string) : json :=
  JObj (py_dict [("hspHome", JInt 20); ("cspHome", JFloat 24.5);
                 ("serial", JStr deviceid)]).

Definition sample_remote : transport := fixed_remote sample_listing sample_detail.

(** The token refresh is refused, the login is accepted. *)
Definition refresh_rejected : transport :=
  λ _ rq,
    match meth rq with
    | POST =>
        if String.eqb (url rq) login_url
        then Answer (Response 200 (Some (JObj
               {[ "accessToken" := JStr "token-3";
                  "refreshToken" := JStr "refresh-3" ]})))
        else Answer (Response 400 (Some (JObj {[ "error" := JStr "invalid_grant" ]})))
    | _ => expired_reply
    end.

(** * Properties *)

(** ** Reasoning about methods *)

Lemma bind_ret_inv {A B} (m : M A) (k : A → M B) w b w' :
  bind m k w = (Ret b, w') →
  ∃ a w1, m w = (Ret a, w1) ∧ k a w1 = (Ret b, w').
Proof.
  unfold bind. destruct (m w) as [[a|e|] w1]; intros H; try discriminate.
  exists a, w1. auto.
Qed.

Lemma bind_ret {A B} (m : M A) (k : A → M B) w a w1 :
  m w = (Ret a, w1) → bind m k w = k a w1.
Proof. unfold bind. intros ->. reflexivity. Qed.

Lemma lift_ret_inv {A} (r : res A) w a w' :
  lift r w = (Ret a, w') → r = Val a ∧ w' = w.
Proof. destruct r; cbn; intros H; inversion H; auto. Qed.

Lemma ret_inv {A} (x : A) w a w' : ret x w = (Ret a, w') → a = x ∧ w' = w.
Proof. unfold ret. intros H; inversion H; auto. Qed.

Lemma gets_inv {A} (f : world → A) w a w' :
  gets f w = (Ret a, w') → a = f w ∧ w' = w.
Proof. unfold gets. intros H; inversion H; auto. Qed.

Lemma modify_inv (f : world → world) w a w' :
  modify f w = (Ret a, w') → w' = f w.
Proof. unfold modify. intros H; inversion H; auto. Qed.

Section Frame.

Context (R : relation world) `{!PreOrder R}.

Lemma preserves_ret {A} (a : A) : preserves R (ret a).
Proof. intros w. reflexivity. Qed.

Lemma preserves_raise {A} e : preserves R (@raise A e).
Proof. intros w. reflexivity. Qed.

Lemma preserves_diverge {A} : preserves R (@diverge A).
Proof. intros w. reflexivity. Qed.

Lemma preserves_gets {A} (f : world → A) : preserves R (gets f).
Proof. intros w. reflexivity. Qed.

Lemma preserves_lift {A} (r : res A) : preserves R (lift r).
Proof. destruct r; [apply preserves_ret | apply preserves_raise]. Qed.

Lemma preserves_attr {A} (f : world → option A) : preserves R (attr f).
Proof. intros w. unfold attr. destruct (f w); reflexivity. Qed.

Lemma preserves_modify f : (∀ w, R w (f w)) → preserves R (modify f).
Proof. intros Hf w. apply Hf. Qed.

Lemma preserves_bind {A B} (m : M A) (k : A → M B) :
  preserves R m → (∀ a, preserves R (k a)) → preserves R (bind m k).
Proof.
  intros Hm Hk w. unfold bind. specialize (Hm w).
  destruct (m w) as [[a|e|] w1]; cbn in *; auto.
  etransitivity; [exact Hm | apply Hk].
Qed.

Lemma preserves_for_fold {A S} (l : list A) (body : A → S → M S) s :
  (∀ x s, preserves R (body x s)) → preserves R (for_fold l body s).
Proof.
  intros Hb. revert s. induction l as [|x l IH]; intros s; cbn.
  - apply preserves_ret.
  - apply preserves_bind; auto.
Qed.

Lemma preserves_default_to arg d :
  preserves R d → preserves R (default_to arg d).
Proof. intros Hd. destruct arg; cbn; auto using preserves_ret. Qed.

End Frame.

(** Splits a goal [preserves R m] along the structure of [m]. *)
Ltac frame_step :=
  match goal with
  | |- preserves _ (bind _ _) => apply preserves_bind; [ .. | idtac | intros ? ]
  | |- preserves _ (ret _) => apply preserves_ret
  | |- preserves _ (raise _) => apply preserves_raise
  | |- preserves _ diverge => apply preserves_diverge
  | |- preserves _ (gets _) => apply preserves_gets
  | |- preserves _ (lift _) => apply preserves_lift
  | |- preserves _ (attr _) => apply preserves_attr
  | |- preserves _ (for_fold _ _ _) =>
      apply preserves_for_fold; [ .. | intros ? ? ]
  | |- preserves _ (default_to _ _) => apply preserves_default_to
  | |- preserves _ (modify _) => apply preserves_modify; [ .. | intros ? ]
  | |- preserves _ (match ?x with _ => _ end) => destruct x
  | |- PreOrder _ => first [ assumption | typeclasses eauto ]
  end.
Ltac frame := repeat frame_step.

Section FrameSession.

Context (R : relation world) `{!PreOrder R}.
Variable net : transport.

(** What the token and fetch machinery writes besides the cache. *)
Hypothesis R_files : ∀ fs w, R w (set_files fs w).
Hypothesis R_config : ∀ c w, R w (set_config c w).
Hypothesis R_access : ∀ t w, R w (set_access_token t w).
Hypothesis R_refresh : ∀ t w, R w (set_refresh_token t w).
Hypothesis R_auth : ∀ b w, R w (set_authenticated b w).
Hypothesis R_sent : ∀ rq w, R w (set_sent (sent w ++ [rq]) w).

Lemma preserves_auth_header : preserves R auth_header.
Proof. unfold auth_header. frame. Qed.

Lemma preserves_http rq : preserves R (http net rq).
Proof. intros w. cbn. apply R_sent. Qed.

Lemma preserves_config_from_file fn c : preserves R (config_from_file fn c).
Proof. unfold config_from_file. frame; auto. Qed.

Lemma preserves_write_tokens_to_file : preserves R (write_tokens_to_file).
Proof.
  unfold write_tokens_to_file. frame; auto using preserves_config_from_file.
Qed.

Lemma preserves_request_tokens : preserves R (request_tokens net).
Proof.
  unfold request_tokens. frame;
    auto using preserves_http, preserves_write_tokens_to_file.
Qed.

Lemma preserves_refresh_tokens : preserves R (refresh_tokens net).
Proof.
  unfold refresh_tokens. frame;
    auto using preserves_http, preserves_write_tokens_to_file,
      preserves_request_tokens.
Qed.

Lemma preserves_get_thermostat_info fuel deviceid :
  preserves R (get_thermostat_info net fuel deviceid).
Proof.
  induction fuel as [|fuel IH]; cbn; frame;
    auto using preserves_http, preserves_auth_header, preserves_refresh_tokens.
Qed.

Lemma preserves_cached index key : preserves R (cached index key).
Proof. unfold cached. frame. Qed.

Lemma preserves_make_request fuel index body msg retry_count :
  preserves R (make_request net fuel index body msg retry_count).
Proof.
  revert index body retry_count.
  induction fuel as [|fuel IH]; intros index body retry_count; cbn; frame;
    auto using preserves_http, preserves_auth_header, preserves_refresh_tokens.
Qed.

Lemma preserves_run_command c : preserves R (run_command net c).
Proof.
  destruct c; unfold run_command;
    unfold set_hvac_mode, set_thermostat_schedule, set_fan_mode, set_fan_speed,
      set_fan_clean, set_temp_hold, set_permanent_hold, set_away, resume_program,
      set_fan_schedule, set_night_mode, set_humidity,
      set_thermostat_schedule_body, set_temp_hold_body, set_permanent_hold_body,
      set_away_body, set_humidity_body;
    frame; auto using preserves_make_request, preserves_cached.
Qed.

End FrameSession.

(** ** The cache is written by the fetch only *)

#[local] Instance same_cache_preorder : PreOrder same_cache.
Proof.
  split.
  - intros w. reflexivity.
  - intros w1 w2 w3 H12 H23. unfold same_cache in *. congruence.
Qed.

#[local] Instance log_grows_preorder : PreOrder log_grows.
Proof.
  split.
  - intros w. unfold log_grows. reflexivity.
  - intros w1 w2 w3 H12 H23. unfold log_grows in *. by etransitivity.
Qed.

(** C9: no command builder changes [self.thermostats], whatever its
    arguments, the replies of the transport and its outcome; neither do
    [make_request], the token methods or [get_thermostat_info], so the only
    writer of cache entries is the fetch [get_thermostats]. *)
Theorem commands_keep_cache (net : transport) :
  (∀ c w, thermostats (run_command net c w).2 = thermostats w)
  ∧ (∀ fuel index body msg retry_count w,
       thermostats (make_request net fuel index body msg retry_count w).2
       = thermostats w)
  ∧ (∀ w, thermostats (refresh_tokens net w).2 = thermostats w)
  ∧ (∀ w, thermostats (request_tokens net w).2 = thermostats w)
  ∧ (∀ fuel deviceid w,
       thermostats (get_thermostat_info net fuel deviceid w).2 = thermostats w).
Proof.
  repeat split; intros.
  - by apply (preserves_run_command same_cache).
  - by apply (preserves_make_request same_cache).
  - by apply (preserves_refresh_tokens same_cache).
  - by apply (preserves_request_tokens same_cache).
  - by apply (preserves_get_thermostat_info same_cache).
Qed.

(** ** What the builders transmit *)

Lemma py_index_int {A} (l : list A) (i : Z) (x : A) :
  list_getitem l i = Some x → py_index l (JInt i) = Val x.
Proof. intros H. cbn. by rewrite H. Qed.

Lemma cached_ok (i : Z) (key : string) w entry v :
  list_getitem (thermostats w) i = Some entry →
  entry !! key = Some v →
  cached (JInt i) key w = (Ret v, w).
Proof.
  intros Hi Hk. unfold cached, bind, gets. cbn.
  rewrite Hi. cbn. rewrite Hk. reflexivity.
Qed.

Lemma auth_header_ok w tok :
  access_token w = JStr tok →
  auth_header w
  = (Ret {[ "Content-Type" := "application/json;charset=UTF-8";
            "Authorization" := "Bearer " +:+ tok ]}, w).
Proof. intros H. unfold auth_header, bind, gets. rewrite H. reflexivity. Qed.

Ltac log_facts :=
  try typeclasses eauto;
  intros; unfold log_grows; cbn; first [ reflexivity | by apply prefix_app_r ].

Lemma log_grows_refresh_tokens net : preserves log_grows (refresh_tokens net).
Proof. apply preserves_refresh_tokens; log_facts. Qed.

Lemma log_grows_make_request net fuel index body msg retry_count :
  preserves log_grows (make_request net fuel index body msg retry_count).
Proof. apply preserves_make_request; log_facts. Qed.

Lemma first_sent_after_http net rq {A} (k : reply → M A) w :
  (∀ r, preserves log_grows (k r)) →
  first_sent w (bind (http net rq) k w).2 = Some rq.
Proof.
  intros Hk. unfold bind, http.
  specialize (Hk (net (sent w) rq) (set_sent (sent w ++ [rq]) w)).
  unfold first_sent, log_grows in *. cbn in Hk.
  eapply prefix_lookup_Some; [|exact Hk].
  by rewrite lookup_app_r, Nat.sub_diag.
Qed.

(** The first thing [make_request] hands to the transport is the PUT of
    [body] to the endpoint of the entry at [index]. *)
Lemma make_request_first_sent net fuel index body msg retry_count w entry s tok :
  py_index (thermostats w) index = Val entry →
  entry !! "id" = Some (JStr s) →
  access_token w = JStr tok →
  first_sent w (make_request net (S fuel) index body msg retry_count w).2
  = Some (Request PUT (device_url_prefix +:+ s)
            {[ "Content-Type" := "application/json;charset=UTF-8";
               "Authorization" := "Bearer " +:+ tok ]}
            (Some body)).
Proof.
  intros Hi Hid Htok. cbn [make_request].
  erewrite bind_ret by reflexivity.
  erewrite bind_ret by (rewrite Hi; reflexivity).
  erewrite bind_ret by (cbn; rewrite Hid; reflexivity).
  erewrite bind_ret by reflexivity.
  erewrite bind_ret by (by apply auth_header_ok).
  apply first_sent_after_http. intros r.
  frame; auto using log_grows_refresh_tokens, log_grows_make_request.
Qed.

(** C6: [set_temp_hold(index)] with no temperatures and no duration, on a
    valid index whose entry holds numeric [hspHome] and [cspHome] and a
    [schedOverrideDuration], builds a fieldset whose [hspHome] and [cspHome]
    are the cached ones rounded to one decimal and whose
    [schedOverrideDuration] is the cached one; that fieldset is the body of
    the PUT the call sends. *)
Theorem set_temp_hold_defaults net (i : Z) w entry hsp csp dur hsp' csp' :
  list_getitem (thermostats w) i = Some entry →
  entry !! "hspHome" = Some hsp →
  entry !! "cspHome" = Some csp →
  entry !! "schedOverrideDuration" = Some dur →
  py_round1 hsp = Val hsp' →
  py_round1 csp = Val csp' →
  ∃ body : device,
    set_temp_hold_body (JInt i) JNull JNull JNull w = (Ret body, w)
    ∧ body !! "hspHome" = Some hsp'
    ∧ body !! "cspHome" = Some csp'
    ∧ body !! "schedOverrideDuration" = Some dur
    ∧ (∀ s tok, entry !! "id" = Some (JStr s) → access_token w = JStr tok →
        ∃ hdr,
          first_sent w (set_temp_hold net (JInt i) JNull JNull JNull w).2
          = Some (Request PUT (device_url_prefix +:+ s) hdr (Some (JObj body)))).
Proof.
  intros Hi Hh Hc Hd Hrh Hrc.
  assert (Hbody : set_temp_hold_body (JInt i) JNull JNull JNull w
            = (Ret (py_dict [("hspHome", hsp'); ("cspHome", csp');
                             ("schedOverride", JInt 1);
                             ("schedOverrideDuration", dur)]), w)).
  { unfold set_temp_hold_body, default_to.
    erewrite bind_ret by (by eapply cached_ok).
    erewrite bind_ret by (by eapply cached_ok).
    erewrite bind_ret by (by eapply cached_ok).
    erewrite bind_ret by (rewrite Hrh; reflexivity).
    erewrite bind_ret by (rewrite Hrc; reflexivity).
    reflexivity. }
  eexists. split; [exact Hbody|].
  repeat split; try reflexivity.
  intros s tok Hid Htok. eexists.
  unfold set_temp_hold. erewrite bind_ret by exact Hbody.
  eapply make_request_first_sent; eauto using py_index_int.
Qed.

Lemma set_temp_hold_defaults_witness :
  ∃ body : device,
    set_temp_hold_body (JInt 0) JNull JNull JNull sample_world
    = (Ret body, sample_world)
    ∧ body !! "hspHome" = Some (JFloat 20.0)
    ∧ body !! "cspHome" = Some (JFloat 24.6)
    ∧ body !! "schedOverrideDuration" = Some (JInt 60)
    ∧ (∀ s tok, home !! "id" = Some (JStr s) →
        access_token sample_world = JStr tok →
        ∃ hdr,
          first_sent sample_world
            (set_temp_hold offline (JInt 0) JNull JNull JNull sample_world).2
          = Some (Request PUT (device_url_prefix +:+ s) hdr (Some (JObj body)))).
Proof.
  apply (set_temp_hold_defaults offline 0 sample_world home
           (JFloat 20.04) (JFloat 24.55) (JInt 60));
    reflexivity.
Defined.

(** C7: on a valid index whose entry holds numeric [hspHome] and [cspHome],
    [set_permanent_hold(index)] builds exactly
    [{hspHome, cspHome, schedOverride: 0, schedEnabled: False}] (the two
    setpoints being the cached ones rounded to one decimal), and
    [resume_program(index)] builds exactly
    [{schedEnabled: True, schedOverride: 0, geofencingAway: False}]; each is
    the body of the PUT the call sends. *)
Theorem hold_and_resume_fieldsets net (i : Z) w entry hsp csp hsp' csp' s tok :
  list_getitem (thermostats w) i = Some entry →
  entry !! "id" = Some (JStr s) →
  entry !! "hspHome" = Some hsp →
  entry !! "cspHome" = Some csp →
  py_round1 hsp = Val hsp' →
  py_round1 csp = Val csp' →
  access_token w = JStr tok →
  let hold : device :=
    {[ "hspHome" := hsp'; "cspHome" := csp'; "schedOverride" := JInt 0;
       "schedEnabled" := JBool false ]} in
  let resume : device :=
    {[ "schedEnabled" := JBool true; "schedOverride" := JInt 0;
       "geofencingAway" := JBool false ]} in
  set_permanent_hold_body (JInt i) JNull JNull w = (Ret hold, w)
  ∧ dom hold = {[ "hspHome"; "cspHome"; "schedOverride"; "schedEnabled" ]}
  ∧ (∃ hdr, first_sent w (set_permanent_hold net (JInt i) JNull JNull w).2
            = Some (Request PUT (device_url_prefix +:+ s) hdr (Some (JObj hold))))
  ∧ resume_program_body = resume
  ∧ (∃ hdr, first_sent w (resume_program net (JInt i) w).2
            = Some (Request PUT (device_url_prefix +:+ s) hdr (Some (JObj resume)))).
Proof.
  intros Hi Hid Hh Hc Hrh Hrc Htok hold resume.
  assert (Hbody : set_permanent_hold_body (JInt i) JNull JNull w = (Ret hold, w)).
  { unfold set_permanent_hold_body, default_to.
    erewrite bind_ret by (by eapply cached_ok).
    erewrite bind_ret by (by eapply cached_ok).
    erewrite bind_ret by (rewrite Hrh; reflexivity).
    erewrite bind_ret by (rewrite Hrc; reflexivity).
    reflexivity. }
  split; [exact Hbody|]. split.
  { subst hold. rewrite !dom_insert_L, dom_singleton_L. set_solver. }
  split.
  { eexists. unfold set_permanent_hold. erewrite bind_ret by exact Hbody.
    eapply make_request_first_sent; eauto using py_index_int. }
  split; [reflexivity|].
  eexists. unfold resume_program.
  eapply make_request_first_sent; eauto using py_index_int.
Qed.

Lemma hold_and_resume_fieldsets_witness :
  set_permanent_hold_body (JInt 0) JNull JNull sample_world
  = (Ret {[ "hspHome" := JFloat 20.0; "cspHome" := JFloat 24.6;
            "schedOverride" := JInt 0; "schedEnabled" := JBool false ]},
     sample_world)
  ∧ resume_program_body
    = {[ "schedEnabled" := JBool true; "schedOverride" := JInt 0;
         "geofencingAway" := JBool false ]}.
Proof.
  pose proof (hold_and_resume_fieldsets offline 0 sample_world home
                (JFloat 20.04) (JFloat 24.55)
                (JFloat 20.0) (JFloat 24.6) "0000-1111" "token-1"
                eq_refl eq_refl eq_refl eq_refl eq_refl eq_refl eq_refl) as H.
  cbv zeta in H. destruct H as (H1 & _ & _ & H4 & _). split; assumption.
Defined.

(** ** Rounding of setpoints *)

Ltac inv_ret :=
  repeat match goal with
  | H : bind _ _ _ = (Ret _, _) |- _ =>
      apply bind_ret_inv in H; destruct H as (? & ? & ? & H)
  | H : ret _ _ = (Ret _, _) |- _ => apply ret_inv in H; destruct H; subst
  | H : lift _ _ = (Ret _, _) |- _ => apply lift_ret_inv in H; destruct H; subst
  | H : gets _ _ = (Ret _, _) |- _ => apply gets_inv in H; destruct H; subst
  | H : modify _ _ = (Ret _, _) |- _ => apply modify_inv in H; subst
  | H : raise _ _ = (Ret _, _) |- _ => discriminate H
  | H : diverge _ = (Ret _, _) |- _ => discriminate H
  end.

Lemma str_append_inj p a b : p +:+ a = p +:+ b → a = b.
Proof. induction p as [|c p IH]; cbn; intros H; [done|]. inversion H. auto. Qed.

(** [round(x, 1)] on floats whose decimal numeral is no binary fraction:
    20.15 is below the tie and goes down, 24.55 is above it and goes up;
    0.25 is a tie and goes to the even digit; a zero result keeps the sign;
    infinity stays. *)
Lemma float_round1_samples :
  float_round1 20.15 = 20.1%float
  ∧ float_round1 24.55 = 24.6%float
  ∧ float_round1 21.3 = 21.3%float
  ∧ float_round1 0.25 = 0.2%float
  ∧ float_round1 (-0.04) = (-0.0)%float
  ∧ float_round1 infinity = infinity.
Proof. repeat split; vm_compute; reflexivity. Qed.

Lemma cached_entry index key w entry :
  py_index (thermostats w) index = Val entry →
  cached index key w = lift (py_getitem (JObj entry) key) w.
Proof. intros Hi. unfold cached, bind, gets. rewrite Hi. reflexivity. Qed.

Lemma default_to_taken index key w entry arg v w' :
  py_index (thermostats w) index = Val entry →
  default_to arg (cached index key) w = (Ret v, w')
  ↔ w' = w ∧ taken arg entry key v.
Proof.
  intros Hi. destruct arg; cbn [default_to taken];
    try (unfold ret; split; [intros H; inversion H; auto | intros [-> ->]; auto]).
  rewrite (cached_entry _ _ _ _ Hi). cbn. destruct (entry !! key) as [x|]; cbn.
  - unfold ret. split; [intros H; inversion H; auto | intros [-> H]].
    by inversion H.
  - unfold raise. split; [discriminate | by intros [_ H]].
Qed.

Lemma default_to_taken_away index key w entry arg v w' :
  py_index (thermostats w) index = Val entry →
  default_to arg (c <- cached index key ;; lift (py_round1 c)) w = (Ret v, w')
  ↔ w' = w ∧ taken_away arg entry key v.
Proof.
  intros Hi. destruct arg; cbn [default_to taken_away];
    try (unfold ret; split; [intros H; inversion H; auto | intros [-> ->]; auto]).
  unfold bind. rewrite (cached_entry _ _ _ _ Hi). cbn.
  destruct (entry !! key) as [x|]; cbn.
  - destruct (py_round1 x) as [r|e] eqn:Hr; cbn; unfold ret, raise.
    + split.
      * intros H. inversion H; subst. eauto.
      * intros (-> & c & Hc & Hv). inversion Hc; subst. rewrite Hr in Hv.
        by inversion Hv.
    + split; [discriminate|].
      intros (_ & c & Hc & Hv). inversion Hc; subst. rewrite Hr in Hv.
      discriminate.
  - unfold raise. split; [discriminate|]. by intros (_ & c & Hc & _).
Qed.

(** A builder that made [body] without touching the session transmits it. *)
Lemma built_transmits net (build : M device) index msg w entry s tok body :
  py_index (thermostats w) index = Val entry →
  entry !! "id" = Some (JStr s) →
  access_token w = JStr tok →
  build w = (Ret body, w) →
  transmits (body <- build ;; make_request net retry_depth index (JObj body) msg 0)
    w s body.
Proof.
  intros Hi Hid Htok Hb. eexists. erewrite bind_ret by exact Hb.
  eapply make_request_first_sent; eauto.
Qed.

(** C5, as the code has it: on a valid index, [set_temp_hold] and
    [set_permanent_hold] transmit under [hspHome] and [cspHome] exactly
    [round(v, 1)] of the value [v] they take, the argument or, where it is
    [None], the cached field; [set_away] transmits [round(cached, 1)] where
    it takes a temperature from the cache and a supplied temperature as it
    is; [set_humidity] and [set_thermostat_schedule] transmit the setpoints
    they take as they are.  Each builder returns a fieldset exactly when the
    values it takes are there (and, where it rounds, are numbers), and that
    fieldset is the body of the PUT it sends. *)
Theorem setpoint_rounding net index w entry s tok :
  py_index (thermostats w) index = Val entry →
  entry !! "id" = Some (JStr s) →
  access_token w = JStr tok →
  (∀ cool heat dur body w',
     set_temp_hold_body index cool heat dur w = (Ret body, w')
     ↔ w' = w
       ∧ ∃ h c d h' c',
           taken heat entry "hspHome" h ∧ taken cool entry "cspHome" c
           ∧ taken dur entry "schedOverrideDuration" d
           ∧ py_round1 h = Val h' ∧ py_round1 c = Val c'
           ∧ body = py_dict [("hspHome", h'); ("cspHome", c');
                             ("schedOverride", JInt 1);
                             ("schedOverrideDuration", d)]
           ∧ holds_rounded body "hspHome" h ∧ holds_rounded body "cspHome" c)
  ∧ (∀ cool heat dur body,
       set_temp_hold_body index cool heat dur w = (Ret body, w) →
       transmits (set_temp_hold net index cool heat dur) w s body)
  ∧ (∀ cool heat body w',
       set_permanent_hold_body index cool heat w = (Ret body, w')
       ↔ w' = w
         ∧ ∃ h c h' c',
             taken heat entry "hspHome" h ∧ taken cool entry "cspHome" c
             ∧ py_round1 h = Val h' ∧ py_round1 c = Val c'
             ∧ body = py_dict [("hspHome", h'); ("cspHome", c');
                               ("schedOverride", JInt 0);
                               ("schedEnabled", JBool false)]
             ∧ holds_rounded body "hspHome" h ∧ holds_rounded body "cspHome" c)
  ∧ (∀ cool heat body,
       set_permanent_hold_body index cool heat w = (Ret body, w) →
       transmits (set_permanent_hold net index cool heat) w s body)
  ∧ (∀ mode heat cool body w',
       set_away_body index mode heat cool w = (Ret body, w')
       ↔ w' = w
         ∧ ∃ h c,
             taken_away heat entry "hspAway" h ∧ taken_away cool entry "cspAway" c
             ∧ body = py_dict [("geofencingAway", mode); ("hspAway", h);
                               ("cspAway", c)]
             ∧ body !! "hspAway" = Some h ∧ body !! "cspAway" = Some c)
  ∧ (∀ mode heat cool body,
       set_away_body index mode heat cool w = (Ret body, w) →
       transmits (set_away net index mode heat cool) w s body)
  ∧ (∀ low high body w',
       set_humidity_body index low high w = (Ret body, w')
       ↔ w' = w
         ∧ ∃ lo hi,
             taken low entry "humSP" lo ∧ taken high entry "dehumSP" hi
             ∧ body = py_dict [("dehumSP", hi); ("humSP", lo)]
             ∧ body !! "humSP" = Some lo ∧ body !! "dehumSP" = Some hi)
  ∧ (∀ low high body,
       set_humidity_body index low high w = (Ret body, w) →
       transmits (set_humidity net index low high) w s body)
  ∧ (∀ prefix start enable label heating cooling,
       ∃ body,
         set_thermostat_schedule_body (JStr prefix) start enable label
           heating cooling w = (Ret body, w)
         ∧ body !! (prefix +:+ "hsp") = Some heating
         ∧ body !! (prefix +:+ "csp") = Some cooling
         ∧ transmits (set_thermostat_schedule net index (JStr prefix) start
                        enable label heating cooling) w s body).
Proof.
  intros Hi Hid Htok.
  split; [|split; [|split; [|split; [|split; [|split; [|split; [|split]]]]]]].
  - intros cool heat dur body w'. unfold set_temp_hold_body. split.
    + intros H.
      apply bind_ret_inv in H as (d & w1 & Hd & H).
      apply (default_to_taken _ _ _ entry) in Hd as [-> Hd]; [|exact Hi].
      apply bind_ret_inv in H as (c & w1 & Hc & H).
      apply (default_to_taken _ _ _ entry) in Hc as [-> Hc]; [|exact Hi].
      apply bind_ret_inv in H as (h & w1 & Hh & H).
      apply (default_to_taken _ _ _ entry) in Hh as [-> Hh]; [|exact Hi].
      inv_ret. split; [reflexivity|].
      eexists _, _, _, _, _. split_and!; try eassumption; try reflexivity;
        (eexists; split; [eassumption|reflexivity]).
    + intros (-> & h & c & d & h' & c' & Hh & Hc & Hd & Hrh & Hrc & -> & _).
      erewrite bind_ret by (by apply (default_to_taken _ _ _ entry)).
      erewrite bind_ret by (by apply (default_to_taken _ _ _ entry)).
      erewrite bind_ret by (by apply (default_to_taken _ _ _ entry)).
      erewrite bind_ret by (rewrite Hrh; reflexivity).
      erewrite bind_ret by (rewrite Hrc; reflexivity). reflexivity.
  - intros cool heat dur body Hb. unfold set_temp_hold.
    by eapply built_transmits.
  - intros cool heat body w'. unfold set_permanent_hold_body. split.
    + intros H.
      apply bind_ret_inv in H as (c & w1 & Hc & H).
      apply (default_to_taken _ _ _ entry) in Hc as [-> Hc]; [|exact Hi].
      apply bind_ret_inv in H as (h & w1 & Hh & H).
      apply (default_to_taken _ _ _ entry) in Hh as [-> Hh]; [|exact Hi].
      inv_ret. split; [reflexivity|].
      eexists _, _, _, _. split_and!; try eassumption; try reflexivity;
        (eexists; split; [eassumption|reflexivity]).
    + intros (-> & h & c & h' & c' & Hh & Hc & Hrh & Hrc & -> & _).
      erewrite bind_ret by (by apply (default_to_taken _ _ _ entry)).
      erewrite bind_ret by (by apply (default_to_taken _ _ _ entry)).
      erewrite bind_ret by (rewrite Hrh; reflexivity).
      erewrite bind_ret by (rewrite Hrc; reflexivity). reflexivity.
  - intros cool heat body Hb. unfold set_permanent_hold.
    by eapply built_transmits.
  - intros mode heat cool body w'. unfold set_away_body. split.
    + intros H.
      apply bind_ret_inv in H as (h & w1 & Hh & H).
      apply (default_to_taken_away _ _ _ entry) in Hh as [-> Hh]; [|exact Hi].
      apply bind_ret_inv in H as (c & w1 & Hc & H).
      apply (default_to_taken_away _ _ _ entry) in Hc as [-> Hc]; [|exact Hi].
      inv_ret. split; [reflexivity|].
      eexists _, _. split_and!; try eassumption; reflexivity.
    + intros (-> & h & c & Hh & Hc & -> & _).
      erewrite bind_ret by (by apply (default_to_taken_away _ _ _ entry)).
      erewrite bind_ret by (by apply (default_to_taken_away _ _ _ entry)).
      reflexivity.
  - intros mode heat cool body Hb. unfold set_away.
    by eapply built_transmits.
  - intros low high body w'. unfold set_humidity_body. split.
    + intros H.
      apply bind_ret_inv in H as (lo & w1 & Hl & H).
      apply (default_to_taken _ _ _ entry) in Hl as [-> Hl]; [|exact Hi].
      apply bind_ret_inv in H as (hi & w1 & Hh & H).
      apply (default_to_taken _ _ _ entry) in Hh as [-> Hh]; [|exact Hi].
      inv_ret. split; [reflexivity|].
      eexists _, _. split_and!; try eassumption; reflexivity.
    + intros (-> & lo & hi & Hl & Hh & -> & _).
      erewrite bind_ret by (by apply (default_to_taken _ _ _ entry)).
      erewrite bind_ret by (by apply (default_to_taken _ _ _ entry)).
      reflexivity.
  - intros low high body Hb. unfold set_humidity.
    by eapply built_transmits.
  - intros prefix start enable label heating cooling. eexists.
    split; [reflexivity|]. split; [|split].
    + unfold py_dict. cbn [foldl fst snd].
      rewrite lookup_insert_ne by (intros E; by apply str_append_inj in E).
      by rewrite lookup_insert_eq.
    + unfold py_dict. cbn [foldl fst snd]. by rewrite lookup_insert_eq.
    + unfold set_thermostat_schedule. by eapply built_transmits.
Qed.

Lemma setpoint_rounding_witness :
  set_temp_hold_body (JInt 0) (JFloat 25.04) JNull JNull sample_world
  = (Ret (py_dict [("hspHome", JFloat 20.0); ("cspHome", JFloat 25.0);
                   ("schedOverride", JInt 1);
                   ("schedOverrideDuration", JInt 60)]), sample_world)
  ∧ set_away_body (JInt 0) (JBool true) JNull (JFloat 27.25) sample_world
    = (Ret (py_dict [("geofencingAway", JBool true); ("hspAway", JFloat 16.7);
                     ("cspAway", JFloat 27.25)]), sample_world).
Proof.
  destruct (setpoint_rounding offline (JInt 0) sample_world home "0000-1111"
              "token-1" eq_refl eq_refl eq_refl)
    as (Hhold & _ & _ & _ & Haway & _).
  split.
  - apply Hhold. split; [reflexivity|].
    exists (JFloat 20.04), (JFloat 25.04), (JInt 60), (JFloat 20.0), (JFloat 25.0).
    split; [reflexivity|]. split; [reflexivity|]. split; [reflexivity|].
    split; [vm_compute; reflexivity|]. split; [vm_compute; reflexivity|].
    split; [reflexivity|].
    split; eexists; (split; [vm_compute; reflexivity|reflexivity]).
  - apply Haway. split; [reflexivity|].
    exists (JFloat 16.7), (JFloat 27.25).
    split; [|split; [reflexivity|split; [reflexivity|split; reflexivity]]].
    exists (JFloat 16.66). split; [reflexivity|vm_compute; reflexivity].
Defined.

(** C5 as stated fails: [set_humidity] transmits a supplied 45.57 where
    [round(45.57, 1)] is 45.6, [set_away] a supplied 16.66 where
    [round(16.66, 1)] is 16.7, and [set_thermostat_schedule] a supplied 20.04
    where [round(20.04, 1)] is 20.0. *)
Lemma setpoints_sent_unrounded :
  (∃ body, set_humidity_body (JInt 0) (JFloat 45.57) JNull sample_world
           = (Ret body, sample_world)
           ∧ body !! "humSP" = Some (JFloat 45.57)
           ∧ py_round1 (JFloat 45.57) = Val (JFloat 45.6)
           ∧ ¬ holds_rounded body "humSP" (JFloat 45.57))
  ∧ (∃ body, set_away_body (JInt 0) (JBool true) (JFloat 16.66) JNull
               sample_world = (Ret body, sample_world)
             ∧ body !! "hspAway" = Some (JFloat 16.66)
             ∧ py_round1 (JFloat 16.66) = Val (JFloat 16.7)
             ∧ ¬ holds_rounded body "hspAway" (JFloat 16.66))
  ∧ (∃ body, set_thermostat_schedule_body (JStr "schedMonPart1") (JInt 24)
               (JBool true) (JStr "wakeup") (JFloat 20.04) (JInt 25)
               sample_world = (Ret body, sample_world)
             ∧ body !! "schedMonPart1hsp" = Some (JFloat 20.04)
             ∧ py_round1 (JFloat 20.04) = Val (JFloat 20.0)
             ∧ ¬ holds_rounded body "schedMonPart1hsp" (JFloat 20.04)).
Proof.
  split; [|split]; eexists; (split; [reflexivity|]);
    (split; [vm_compute; reflexivity|]);
    (split; [vm_compute; reflexivity|]);
    intros (r & Hr & Hb); vm_compute in Hr, Hb;
    inversion Hr as [Er]; subst r; inversion Hb as [Eb]; discriminate Eb.
Qed.

(** ** The configuration file *)

Lemma py_truthy_dict (m : device) : m ≠ ∅ → py_truthy (JObj m) = true.
Proof.
  intros Hm. cbn. rewrite bool_decide_eq_false_2; [done|].
  intros Hd. by apply dom_empty_iff_L in Hd.
Qed.

Lemma fs_write_usable fs fn t :
  usable fs fn →
  ∃ r, fs_write fs fn t = Some (<[fn := FFile (File r true t)]> fs) ∧ r = true.
Proof.
  unfold fs_write, usable.
  destruct (fs !! fn) as [[f| |]|]; [|done|done|eauto].
  intros [Hr Hwr]. rewrite Hwr. exists (readable f). auto.
Qed.

(** C8, as the code has it: a non-empty mapping written to a usable path
    (a readable and writable regular file, or nothing yet where a file can
    be created) makes the write return [True] and is what reading that path
    returns then; reading a path that is no regular file returns the empty
    mapping.  An empty mapping is taken for no mapping: the call reads; and
    a path [open] refuses makes the write return [False] and leaves the
    files as they were. *)
Theorem config_round_trip (filename : string) :
  (∀ (m : device) w,
     m ≠ ∅ → usable (files w) filename →
     ∃ w', config_from_file filename (JObj m) w = (Ret (JBool true), w')
           ∧ config_from_file filename JNull w' = (Ret (JObj m), w'))
  ∧ (∀ w, isfile (files w) filename = false →
          config_from_file filename JNull w = (Ret (JObj ∅), w))
  ∧ (∀ w, config_from_file filename (JObj ∅) w
          = config_from_file filename JNull w)
  ∧ (∀ (m : device) w,
       m ≠ ∅ → refuses_write (files w) filename →
       config_from_file filename (JObj m) w = (Ret (JBool false), w)).
Proof.
  split; [|split; [|split]].
  - intros m w Hm Hu. unfold config_from_file at 1.
    rewrite (py_truthy_dict m Hm). unfold bind, gets, modify, ret.
    destruct (fs_write_usable (files w) filename (Doc (JObj m)) Hu)
      as (r & -> & ->).
    eexists. split; [reflexivity|].
    unfold config_from_file, bind, gets, isfile, fs_read. cbn.
    rewrite !lookup_insert_eq. reflexivity.
  - intros w Hf. unfold config_from_file, bind, gets. cbn. by rewrite Hf.
  - intros w. reflexivity.
  - intros m w Hm Hr. unfold config_from_file.
    rewrite (py_truthy_dict m Hm). unfold bind, gets, ret.
    unfold fs_write, refuses_write in *.
    destruct (files w !! filename) as [[f| |]|]; [|done|done|done].
    by rewrite Hr.
Qed.

Lemma config_round_trip_witness :
  (∃ w', config_from_file "daikinskyport.conf" (JObj stored_config) sample_world
         = (Ret (JBool true), w')
         ∧ config_from_file "daikinskyport.conf" JNull w'
           = (Ret (JObj stored_config), w'))
  ∧ config_from_file "daikinskyport.conf" JNull sample_world
    = (Ret (JObj ∅), sample_world)
  ∧ (let w := set_files {[ "conf.d/daikinskyport.conf" := FNoDir ]} sample_world in
     config_from_file "conf.d/daikinskyport.conf" (JObj stored_config) w
     = (Ret (JBool false), w)).
Proof.
  split; [|split].
  - apply (proj1 (config_round_trip "daikinskyport.conf")).
    + intros H. apply (f_equal (λ m : device, m !! "EMAIL")) in H.
      vm_compute in H. discriminate H.
    + vm_compute. exact I.
  - apply (proj1 (proj2 (config_round_trip "daikinskyport.conf"))). reflexivity.
  - apply (proj2 (proj2 (proj2 (config_round_trip "conf.d/daikinskyport.conf")))).
    + intros H. apply (f_equal (λ m : device, m !! "EMAIL")) in H.
      vm_compute in H. discriminate H.
    + vm_compute. exact I.
Defined.

(** C8 as stated fails at the empty mapping, which [if config:] takes for
    a read: nothing is written, and reading returns what the file held.  It
    fails too where the path cannot be opened for writing, a directory or a
    name in a directory that is not there: the write returns [False] and
    reading returns the empty mapping, not the one written. *)
Lemma config_round_trip_fails :
  (∃ old, config_from_file "daikinskyport.conf" (JObj ∅) stored_world
          = (Ret old, stored_world)
          ∧ config_from_file "daikinskyport.conf" JNull stored_world
            = (Ret old, stored_world)
          ∧ old ≠ JObj ∅)
  ∧ (let w := set_files {[ "daikinskyport.conf" := FDir ]} sample_world in
     config_from_file "daikinskyport.conf" (JObj stored_config) w
     = (Ret (JBool false), w)
     ∧ config_from_file "daikinskyport.conf" JNull w = (Ret (JObj ∅), w)
     ∧ stored_config ≠ ∅)
  ∧ (let w := set_files {[ "conf.d/daikinskyport.conf" := FNoDir ]} sample_world in
     config_from_file "conf.d/daikinskyport.conf" (JObj stored_config) w
     = (Ret (JBool false), w)
     ∧ config_from_file "conf.d/daikinskyport.conf" JNull w = (Ret (JObj ∅), w)).
Proof.
  assert (Hne : stored_config ≠ ∅).
  { intros H. apply (f_equal (λ m : device, m !! "EMAIL")) in H.
    vm_compute in H. discriminate H. }
  split; [|split].
  - exists (JObj stored_config). repeat split.
    intros H. apply Hne.
    exact (f_equal (λ j, match j with JObj m => m | _ => ∅ end) H).
  - repeat split. exact Hne.
  - split; reflexivity.
Qed.

(** ** Retries and exceptions *)

Section FrameFetch.

Context (R : relation world) `{!PreOrder R}.
Variable net : transport.

Hypothesis R_files : ∀ fs w, R w (set_files fs w).
Hypothesis R_config : ∀ c w, R w (set_config c w).
Hypothesis R_access : ∀ t w, R w (set_access_token t w).
Hypothesis R_refresh : ∀ t w, R w (set_refresh_token t w).
Hypothesis R_auth : ∀ b w, R w (set_authenticated b w).
Hypothesis R_sent : ∀ rq w, R w (set_sent (sent w ++ [rq]) w).
Hypothesis R_list : ∀ l w, R w (set_thermostatlist l w).
Hypothesis R_cache : ∀ c w, R w (set_thermostats c w).

Lemma preserves_get_thermostats_body fuel thermostat :
  preserves R (get_thermostats_body net fuel thermostat).
Proof.
  unfold get_thermostats_body, scan_cache, scan_step. frame;
    auto using preserves_get_thermostat_info.
Qed.

Lemma preserves_get_thermostats fuel : preserves R (get_thermostats net fuel).
Proof.
  induction fuel as [|fuel IH]; cbn [get_thermostats]; unfold for_each; frame;
    auto using preserves_http, preserves_auth_header, preserves_refresh_tokens,
      preserves_get_thermostats_body.
Qed.

End FrameFetch.

Lemma log_grows_get_thermostats net fuel :
  preserves log_grows (get_thermostats net fuel).
Proof. apply preserves_get_thermostats; log_facts. Qed.

Lemma log_grows_get_thermostat_info net fuel deviceid :
  preserves log_grows (get_thermostat_info net fuel deviceid).
Proof. apply preserves_get_thermostat_info; log_facts. Qed.

Lemma attempts_split u w w1 w2 :
  log_grows w w1 → log_grows w1 w2 →
  attempts u w w2 = (attempts u w w1 + attempts u w1 w2)%nat.
Proof.
  unfold log_grows, attempts. intros [l1 H1] [l2 H2]. rewrite H2, H1.
  rewrite <- (assoc_L (++)), !drop_app_length.
  rewrite (assoc_L (++)), drop_app_length.
  by rewrite filter_app, length_app.
Qed.

#[local] Instance same_session_preorder : PreOrder same_session.
Proof.
  split.
  - intros w. by split.
  - intros w1 w2 w3 [H1 H2] [H3 H4]. split; congruence.
Qed.

Lemma config_from_file_write_returns fn (m : device) w :
  m ≠ ∅ → ∃ b, (config_from_file fn (JObj m) w).1 = Ret (JBool b).
Proof.
  intros Hm. unfold config_from_file. rewrite (py_truthy_dict m Hm).
  unfold bind, gets. destruct (fs_write _ _ _); cbn; eauto.
Qed.

Lemma write_tokens_to_file_returns w :
  ∃ w', write_tokens_to_file w = (Ret tt, w') ∧ same_session w w'.
Proof.
  assert (Hs : same_session w (write_tokens_to_file w).2).
  { apply preserves_write_tokens_to_file; try typeclasses eauto; by intros. }
  assert (Hr : (write_tokens_to_file w).1 = Ret tt).
  { unfold write_tokens_to_file, bind, gets. cbn.
    destruct (file_based_config w); [|reflexivity].
    match goal with |- context [config_from_file ?fn (JObj ?m) ?w0] =>
      destruct (config_from_file_write_returns fn m w0) as [b Hb];
        [apply insert_non_empty|];
      destruct (config_from_file fn (JObj m) w0) as [r w1] end.
    cbn in Hb. by rewrite Hb. }
  destruct (write_tokens_to_file w) as [r w']. cbn in *. subst. eauto.
Qed.

Lemma refresh_always_expired w :
  ∃ w' data,
    refresh_tokens always_expired w = (Ret (JBool true), w')
    ∧ access_token w' = JStr "token-2"
    ∧ sent w' = sent w ++ [Request POST token_url token_header data].
Proof.
  unfold refresh_tokens.
  erewrite bind_ret by reflexivity. erewrite bind_ret by reflexivity.
  erewrite bind_ret by reflexivity.
  cbn [always_expired meth new_token_reply status_code].
  change (200 =? 200) with true. cbv iota.
  erewrite bind_ret by reflexivity. erewrite bind_ret by reflexivity.
  erewrite bind_ret by reflexivity.
  match goal with |- context [bind write_tokens_to_file _ ?w0] =>
    destruct (write_tokens_to_file_returns w0) as (w' & Hw & Ha & Hs) end.
  erewrite bind_ret by exact Hw.
  eexists w', _. split; [reflexivity|]. split.
  - rewrite Ha. reflexivity.
  - rewrite Hs. reflexivity.
Qed.

Lemma attempts_two u w w' (a b : request) :
  sent w' = (sent w ++ [a]) ++ [b] → url a = u → url b ≠ u →
  attempts u w w' = 1%nat ∧ log_grows w w'.
Proof.
  intros Hs Ha Hb. unfold attempts, log_grows. rewrite Hs, <- (assoc_L (++)).
  split; [|by apply prefix_app_r].
  rewrite drop_app_length. cbn [app].
  rewrite filter_cons_True by done.
  rewrite filter_cons_False by done. reflexivity.
Qed.

Lemma get_thermostats_never_settles (n : nat) : ∀ w tok,
  access_token w = JStr tok →
  (get_thermostats always_expired n w).1 = Diverge
  ∧ attempts devices_url w (get_thermostats always_expired n w).2 = n.
Proof.
  induction n as [|n IH]; intros w tok Htok.
  - split; [reflexivity|]. unfold attempts. cbn. by rewrite drop_all.
  - cbn [get_thermostats].
    erewrite bind_ret by (by apply auth_header_ok).
    erewrite bind_ret by reflexivity.
    cbn [always_expired meth expired_reply status_code].
    change (401 =? 200) with false. cbv iota.
    erewrite bind_ret by reflexivity.
    match goal with |- context [bind (refresh_tokens _) _ ?w0] =>
      destruct (refresh_always_expired w0) as (w3 & data & Hr & Ha & Hs) end.
    erewrite bind_ret by exact Hr. cbn [py_truthy].
    destruct (IH w3 "token-2" Ha) as [Hd Hn]. split; [exact Hd|].
    cbn in Hs.
    destruct (attempts_two devices_url w w3 _ _ Hs) as [H1 Hg];
      [reflexivity | discriminate |].
    rewrite (attempts_split _ w w3)
      by (first [ exact Hg | apply log_grows_get_thermostats ]).
    rewrite H1, Hn. reflexivity.
Qed.

Lemma get_thermostat_info_never_settles (n : nat) deviceid : ∀ w tok,
  access_token w = JStr tok →
  (get_thermostat_info always_expired n deviceid w).1 = Diverge
  ∧ attempts (device_url_prefix +:+ deviceid) w
      (get_thermostat_info always_expired n deviceid w).2 = n.
Proof.
  induction n as [|n IH]; intros w tok Htok.
  - split; [reflexivity|]. unfold attempts. cbn. by rewrite drop_all.
  - cbn [get_thermostat_info].
    erewrite bind_ret by (by apply auth_header_ok).
    erewrite bind_ret by reflexivity.
    cbn [always_expired meth expired_reply status_code].
    change (401 =? 200) with false. cbv iota.
    erewrite bind_ret by reflexivity.
    match goal with |- context [bind (refresh_tokens _) _ ?w0] =>
      destruct (refresh_always_expired w0) as (w3 & data & Hr & Ha & Hs) end.
    erewrite bind_ret by exact Hr. cbn [py_truthy].
    destruct (IH w3 "token-2" Ha) as [Hd Hn]. split; [exact Hd|].
    cbn in Hs.
    destruct (attempts_two (device_url_prefix +:+ deviceid) w w3 _ _ Hs)
      as [H1 Hg]; [reflexivity | discriminate |].
    rewrite (attempts_split _ w w3)
      by (first [ exact Hg | apply log_grows_get_thermostat_info ]).
    rewrite H1, Hn. reflexivity.
Qed.

(** C1 fails on the fetch path: against a transport that answers every
    device request "authorization expired" and every refresh with a new
    token, [get_thermostats] and [get_thermostat_info] have sent [n] requests
    and not returned, for every [n]: there is no second attempt after which
    they give up. *)
Theorem fetch_retries_without_bound (n : nat) (deviceid : string) w tok :
  access_token w = JStr tok →
  (get_thermostats always_expired n w).1 = Diverge
  ∧ attempts devices_url w (get_thermostats always_expired n w).2 = n
  ∧ (get_thermostat_info always_expired n deviceid w).1 = Diverge
  ∧ attempts (device_url_prefix +:+ deviceid) w
      (get_thermostat_info always_expired n deviceid w).2 = n.
Proof.
  intros Htok.
  destruct (get_thermostats_never_settles n w tok Htok) as [H1 H2].
  destruct (get_thermostat_info_never_settles n deviceid w tok Htok) as [H3 H4].
  auto.
Qed.

Lemma fetch_retries_without_bound_witness :
  attempts devices_url sample_world
    (get_thermostats always_expired 3 sample_world).2 = 3%nat
  ∧ attempts (device_url_prefix +:+ "0000-1111") sample_world
      (get_thermostat_info always_expired 3 "0000-1111" sample_world).2 = 3%nat.
Proof.
  destruct (fetch_retries_without_bound 3 "0000-1111" sample_world "token-1"
              eq_refl) as (_ & H2 & _ & H4).
  split; assumption.
Defined.

(** C2 fails: [refresh_tokens] lets the [RequestException] of its POST
    through; a device whose detail cannot be fetched makes [get_thermostats]
    assign into [None]; the retried [make_request] indexes the cache with the
    body; reading a configuration file that is not JSON raises. *)
Theorem failures_that_raise :
  (get_thermostats refresh_down 1 sample_world).1 = Raise RequestException
  ∧ (get_thermostats details_down 1 fresh_world).1 = Raise TypeError
  ∧ (set_hvac_mode always_expired (JInt 0) (JStr "heat") sample_world).1
    = Raise TypeError
  ∧ (config_from_file "daikinskyport.conf" JNull corrupt_world).1
    = Raise JSONDecodeError.
Proof. repeat split; vm_compute; reflexivity. Qed.

(** ** The fetch upserts *)

Lemma set_thermostats_same w : set_thermostats (thermostats w) w = w.
Proof. by destruct w. Qed.

Lemma scan_step_ok s info (done todo : list device) e eid ov w :
  thermostats w = done ++ e :: todo →
  e !! "id" = Some eid →
  scan_step s info (length done) ov w
  = if str_eq s eid
    then (Ret true, set_thermostats (done ++ info :: todo) w)
    else (Ret ov, w).
Proof.
  intros Hc He. unfold scan_step.
  erewrite bind_ret by reflexivity. rewrite Hc.
  rewrite lookup_app_r, Nat.sub_diag by lia. cbn [lookup list_lookup].
  erewrite bind_ret by (cbn; rewrite He; reflexivity).
  destruct (str_eq s eid); [|reflexivity].
  erewrite bind_ret by reflexivity. unfold ret.
  rewrite insert_app_r_alt, Nat.sub_diag by lia. reflexivity.
Qed.

(** The inner loop from [index = length done] on, over the entries [todo]
    still to visit. *)
Lemma scan_loop_ok s info (todo : list device) : ∀ (done : list device) ov w,
  thermostats w = done ++ todo →
  keyed todo →
  for_fold (seq (length done) (length todo)) (scan_step s info) ov w
  = (Ret (ov || existsb (has_id s) todo),
     set_thermostats
       (done ++ ((λ entry, if has_id s entry then info else entry) <$> todo)) w).
Proof.
  induction todo as [|e todo IH]; intros done ov w Hc Hk.
  - cbn. rewrite orb_false_r, <- Hc, set_thermostats_same. reflexivity.
  - apply Forall_cons in Hk as [[eid He] Hk]. cbn [length seq for_fold].
    assert (Hid : has_id s e = str_eq s eid) by (unfold has_id; by rewrite He).
    unfold bind at 1. rewrite (scan_step_ok s info done todo e eid ov w Hc He).
    cbn [existsb fmap list_fmap]. rewrite Hid.
    destruct (str_eq s eid) eqn:Heq.
    + pose proof (IH (done ++ [info]) true
                    (set_thermostats (done ++ info :: todo) w)) as IH'.
      rewrite length_app, Nat.add_1_r in IH'. rewrite IH'; [| |exact Hk].
      * rewrite orb_true_r, <- (assoc_L (++)). reflexivity.
      * cbn. by rewrite <- (assoc_L (++)).
    + pose proof (IH (done ++ [e]) ov w) as IH'.
      rewrite length_app, Nat.add_1_r in IH'. rewrite IH'; [| |exact Hk].
      * rewrite <- (assoc_L (++)). reflexivity.
      * rewrite Hc, <- (assoc_L (++)). reflexivity.
Qed.

Lemma scan_step_unkeyed s info (done todo : list device) e ov w :
  thermostats w = done ++ e :: todo →
  e !! "id" = None →
  (scan_step s info (length done) ov w).1 = Raise KeyError.
Proof.
  intros Hc He. unfold scan_step.
  erewrite bind_ret by reflexivity. rewrite Hc.
  rewrite lookup_app_r, Nat.sub_diag by lia. cbn [lookup list_lookup].
  unfold bind. cbn. rewrite He. reflexivity.
Qed.

Lemma scan_loop_keyed s info (todo : list device) : ∀ (done : list device) ov w b w',
  thermostats w = done ++ todo →
  for_fold (seq (length done) (length todo)) (scan_step s info) ov w = (Ret b, w') →
  keyed todo.
Proof.
  induction todo as [|e todo IH]; intros done ov w b w' Hc H.
  - constructor.
  - cbn [length seq for_fold] in H.
    apply bind_ret_inv in H as (ov1 & w1 & Hstep & H).
    destruct (e !! "id") as [eid|] eqn:He.
    + rewrite (scan_step_ok s info done todo e eid ov w Hc He) in Hstep.
      constructor; [by rewrite He|].
      destruct (str_eq s eid); inversion Hstep; subst.
      * eapply (IH (done ++ [info])); [|rewrite length_app, Nat.add_1_r; exact H].
        cbn. by rewrite <- (assoc_L (++)).
      * eapply (IH (done ++ [e])); [|rewrite length_app, Nat.add_1_r; exact H].
        by rewrite Hc, <- (assoc_L (++)).
    + pose proof (scan_step_unkeyed s info done todo e ov w Hc He) as Hr.
      rewrite Hstep in Hr. discriminate Hr.
Qed.

Lemma scan_cache_ok s info w :
  keyed (thermostats w) →
  scan_cache s info w
  = (Ret (existsb (has_id s) (thermostats w)),
     set_thermostats
       ((λ entry, if has_id s entry then info else entry) <$> thermostats w) w).
Proof.
  intros Hk. unfold scan_cache. erewrite bind_ret by reflexivity.
  apply (scan_loop_ok s info (thermostats w) [] false w); done.
Qed.

Lemma scan_cache_inv s info w b w' :
  scan_cache s info w = (Ret b, w') →
  keyed (thermostats w)
  ∧ b = existsb (has_id s) (thermostats w)
  ∧ w' = set_thermostats
           ((λ entry, if has_id s entry then info else entry) <$> thermostats w) w.
Proof.
  intros H.
  assert (Hk : keyed (thermostats w)).
  { unfold scan_cache in H. apply bind_ret_inv in H as (n & w1 & Hn & H).
    apply gets_inv in Hn as [-> ->].
    by eapply (scan_loop_keyed s info (thermostats w) []). }
  rewrite (scan_cache_ok s info w Hk) in H. inversion H. auto.
Qed.

Lemma no_match_fmap s info (cache : list device) :
  existsb (has_id s) cache = false →
  (λ entry, if has_id s entry then info else entry) <$> cache = cache.
Proof.
  induction cache as [|e cache IH]; cbn; [done|].
  intros H. apply orb_false_iff in H as [-> H]. by rewrite IH.
Qed.

Lemma http_inv net rq w r w' :
  http net rq w = (Ret r, w') →
  r = net (sent w) rq ∧ w' = set_sent (sent w ++ [rq]) w.
Proof. unfold http. intros H. inversion H. auto. Qed.

Lemma resp_json_inv rsp j : resp_json rsp = Val j → content rsp = Some j.
Proof. unfold resp_json. destruct (content rsp); intros H; by inversion H. Qed.

(** What [get_thermostat_info] returns is [None] or a body the transport
    served for that device with status 200. *)
Lemma get_thermostat_info_inv net fuel s : ∀ w j w',
  get_thermostat_info net fuel s w = (Ret j, w') →
  j = JNull ∨ served net (device_url_prefix +:+ s) j.
Proof.
  induction fuel as [|fuel IH]; intros w j w' H; [discriminate H|].
  cbn [get_thermostat_info] in H.
  apply bind_ret_inv in H as (hdr & w1 & Hh & H).
  apply bind_ret_inv in H as (r & w2 & Hr & H).
  apply http_inv in Hr as [-> ->].
  destruct (net _ _) as [|rsp] eqn:Hnet.
  { apply ret_inv in H as [-> _]. by left. }
  destruct (status_code rsp =? 200) eqn:Hs.
  - inv_ret. right. exists (sent w1), hdr, rsp.
    repeat split; [exact Hnet | lia | by apply resp_json_inv].
  - apply bind_ret_inv in H as (? & w3 & _ & H).
    apply bind_ret_inv in H as (ok & w4 & _ & H).
    destruct (py_truthy ok); [by eapply IH|].
    apply ret_inv in H as [-> _]. by left.
Qed.

Lemma same_cache_get_thermostat_info net fuel deviceid :
  preserves same_cache (get_thermostat_info net fuel deviceid).
Proof. apply preserves_get_thermostat_info; try typeclasses eauto; by intros. Qed.

Lemma py_setitem_inv v k x (d : device) :
  py_setitem v k x = Val d → ∃ m, v = JObj m ∧ d = <[k := x]> m.
Proof. destruct v; cbn; intros H; inversion H. eauto. Qed.

(** One round of the outer loop that returns has upserted the merged
    payload of the listed thermostat. *)
Lemma get_thermostats_body_inv net fuel thermostat w w' :
  get_thermostats_body net fuel thermostat w = (Ret tt, w') →
  ∃ p, merged net thermostat p
       ∧ keyed (thermostats w)
       ∧ thermostats w' = upsert (thermostats w) p.1 p.2.
Proof.
  intros H. unfold get_thermostats_body in H.
  apply bind_ret_inv in H as (tid & w0 & Htid & H).
  apply lift_ret_inv in Htid as [Htid ->].
  destruct tid as [| | | |deviceid| |]; try discriminate H.
  apply bind_ret_inv in H as (got & w1 & Hgot & H).
  assert (Hc1 : thermostats w1 = thermostats w).
  { pose proof (same_cache_get_thermostat_info net fuel deviceid w) as P.
    rewrite Hgot in P. exact P. }
  apply get_thermostat_info_inv in Hgot.
  apply bind_ret_inv in H as (name & w2 & Hname & H).
  apply lift_ret_inv in Hname as [Hname ->].
  apply bind_ret_inv in H as (named & w2 & Hnamed & H).
  apply lift_ret_inv in Hnamed as [Hnamed ->].
  apply py_setitem_inv in Hnamed as (detail & -> & ->).
  destruct Hgot as [Hgot|Hgot]; [discriminate Hgot|].
  apply bind_ret_inv in H as (ov & w2 & Hscan & H).
  apply scan_cache_inv in Hscan as (Hk & -> & ->).
  exists (deviceid, <["id" := JStr deviceid]> (<["name" := name]> detail)).
  split; [by exists name, detail|]. rewrite <- Hc1. split; [exact Hk|].
  unfold upsert. cbn [fst snd].
  destruct (existsb (has_id deviceid) (thermostats w1)) eqn:Hex.
  - apply ret_inv in H as [_ ->]. reflexivity.
  - apply bind_ret_inv in H as (c & w3 & Hc & H).
    apply gets_inv in Hc as [-> ->]. apply modify_inv in H as ->.
    cbn. by rewrite no_match_fmap.
Qed.

Lemma for_each_body_inv net fuel (items : list json) : ∀ w w',
  for_each items (get_thermostats_body net fuel) w = (Ret tt, w') →
  ∃ fetched, Forall2 (merged net) items fetched
             ∧ thermostats w' = upsert_all (thermostats w) fetched
             ∧ (items ≠ [] → keyed (thermostats w)).
Proof.
  unfold for_each.
  induction items as [|item items IH]; intros w w' H.
  - apply ret_inv in H as [_ ->]. exists []. by repeat split.
  - cbn [for_fold] in H. apply bind_ret_inv in H as ([] & w1 & Hb & H).
    apply get_thermostats_body_inv in Hb as (p & Hp & Hk & Hc).
    apply IH in H as (fetched & Hf & Hc' & _).
    exists (p :: fetched). split; [by constructor|]. split; [|done].
    rewrite Hc', Hc. reflexivity.
Qed.

Lemma same_cache_refresh_tokens net : preserves same_cache (refresh_tokens net).
Proof. apply preserves_refresh_tokens; try typeclasses eauto; by intros. Qed.

(** A fetch that returns the cache has upserted, in listing order, the merged
    payload of every listed thermostat. *)
Lemma get_thermostats_inv net fuel : ∀ w cache w',
  get_thermostats net fuel w = (Ret (Some cache), w') →
  ∃ listing items fetched,
    served net devices_url listing
    ∧ py_iter listing = Val items
    ∧ Forall2 (merged net) items fetched
    ∧ cache = upsert_all (thermostats w) fetched
    ∧ thermostats w' = cache
    ∧ (items ≠ [] → keyed (thermostats w)).
Proof.
  induction fuel as [|fuel IH]; intros w cache w' H; [discriminate H|].
  cbn [get_thermostats] in H.
  apply bind_ret_inv in H as (hdr & w1 & Hh & H).
  assert (same_cache w w1 ∧ sent w1 = sent w) as [Hc1 Hs1].
  { unfold auth_header in Hh. inv_ret. by split. }
  apply bind_ret_inv in H as (r & w2 & Hr & H).
  apply http_inv in Hr as [-> ->].
  destruct (net _ _) as [|rsp] eqn:Hnet.
  { apply ret_inv in H as [H _]. discriminate H. }
  destruct (status_code rsp =? 200) eqn:Hs.
  - apply bind_ret_inv in H as ([] & w3 & Hm & H). apply modify_inv in Hm as ->.
    apply bind_ret_inv in H as (listing & w3 & Hj & H).
    apply lift_ret_inv in Hj as [Hj ->].
    apply bind_ret_inv in H as ([] & w3 & Hm & H). apply modify_inv in Hm as ->.
    apply bind_ret_inv in H as (items & w3 & Hi & H).
    apply lift_ret_inv in Hi as [Hi ->].
    apply bind_ret_inv in H as ([] & w3 & Hloop & H).
    apply for_each_body_inv in Hloop as (fetched & Hf & Hc & Hk).
    apply bind_ret_inv in H as (c & w4 & Hg & H).
    apply gets_inv in Hg as [-> ->]. apply ret_inv in H as [H ->].
    inversion H; subst cache. cbn in Hc, Hk. rewrite Hc1 in Hc, Hk.
    exists listing, items, fetched. repeat split; try done.
    exists (sent w1), hdr, rsp.
    repeat split; [exact Hnet | lia | by apply resp_json_inv].
  - apply bind_ret_inv in H as ([] & w3 & Hm & H). apply modify_inv in Hm as ->.
    apply bind_ret_inv in H as (ok & w3 & Hok & H).
    pose proof (same_cache_refresh_tokens net
                  (set_authenticated false (set_sent (sent w1 ++
                     [Request GET devices_url hdr None]) w1))) as Hc3.
    rewrite Hok in Hc3. unfold same_cache in Hc3. cbn in Hc3.
    destruct (py_truthy ok).
    + apply IH in H as (listing & items & fetched & H1 & H2 & H3 & H4 & H5 & H6).
      rewrite Hc3, Hc1 in H4, H6. by exists listing, items, fetched.
    + apply ret_inv in H as [H _]. discriminate H.
Qed.

(** ** Upsert on lists *)

Lemma upsert_length cache s info :
  (length cache ≤ length (upsert cache s info))%nat.
Proof.
  unfold upsert. destruct (existsb _ _).
  - by rewrite length_fmap.
  - rewrite length_app. lia.
Qed.

Lemma upsert_all_length fetched : ∀ cache,
  (length cache ≤ length (upsert_all cache fetched))%nat.
Proof.
  induction fetched as [|p fetched IH]; intros cache; cbn; [done|].
  etransitivity; [apply (upsert_length cache p.1 p.2)|apply IH].
Qed.

Lemma upsert_present cache s info i entry :
  existsb (has_id s) cache = true →
  cache !! i = Some entry →
  upsert cache s info !! i = Some (if has_id s entry then info else entry).
Proof.
  intros Hex Hi. unfold upsert. rewrite Hex, list_lookup_fmap, Hi. reflexivity.
Qed.

Lemma upsert_absent cache s info :
  existsb (has_id s) cache = false → upsert cache s info = cache ++ [info].
Proof. intros Hex. unfold upsert. by rewrite Hex. Qed.

(** X1: a fetch that returns the cache never shortens it, and has upserted by id
    the payload of every listed thermostat, in listing order: the detail the
    transport served for it, with [name] and [id] set from the listing.  An
    upsert puts the whole payload in the place of every entry with that id,
    or appends it when there is none. *)
Theorem fetch_upserts net fuel w cache w' :
  get_thermostats net fuel w = (Ret (Some cache), w') →
  thermostats w' = cache
  ∧ (length (thermostats w) ≤ length cache)%nat
  ∧ (∃ listing items fetched,
       served net devices_url listing
       ∧ py_iter listing = Val items
       ∧ Forall2 (merged net) items fetched
       ∧ cache = upsert_all (thermostats w) fetched)
  ∧ (∀ c s info i entry,
       existsb (has_id s) c = true → c !! i = Some entry →
       upsert c s info !! i = Some (if has_id s entry then info else entry))
  ∧ (∀ c s info, existsb (has_id s) c = false → upsert c s info = c ++ [info]).
Proof.
  intros H.
  apply get_thermostats_inv in H
    as (listing & items & fetched & H1 & H2 & H3 & H4 & H5 & _).
  split; [exact H5|]. split; [subst cache; apply upsert_all_length|].
  split; [by exists listing, items, fetched|].
  split; [apply upsert_present | apply upsert_absent].
Qed.

(** The sample session fetches from the sample vendor and gets its cache. *)
Lemma sample_fetch_returns :
  get_thermostats sample_remote 1 sample_world
  = (Ret (Some (thermostats (get_thermostats sample_remote 1 sample_world).2)),
     (get_thermostats sample_remote 1 sample_world).2).
Proof. vm_compute. reflexivity. Qed.

Lemma fetch_upserts_witness :
  (length (thermostats sample_world)
   ≤ length (thermostats (get_thermostats sample_remote 1 sample_world).2))%nat.
Proof.
  pose proof (fetch_upserts sample_remote 1 sample_world
                (thermostats (get_thermostats sample_remote 1 sample_world).2)
                (get_thermostats sample_remote 1 sample_world).2) as H.
  destruct H as (H1 & H2 & _); [apply sample_fetch_returns|].
  exact H2.
Defined.

Lemma has_id_spec s (e : device) : has_id s e = true ↔ e !! "id" = Some (JStr s).
Proof.
  unfold has_id, str_eq. destruct (e !! "id") as [[]|]; split; try done.
  - intros H. apply String.eqb_eq in H. by subst.
  - intros H. inversion H. apply String.eqb_refl.
Qed.

Lemma has_id_id_of s (e : device) : has_id s e = true ↔ id_of e = Some s.
Proof.
  rewrite has_id_spec. unfold id_of.
  destruct (e !! "id") as [[]|]; split; intros H; by inversion H.
Qed.

Lemma merged_tagged net item p : merged net item p → tagged p.
Proof.
  intros (name & detail & _ & _ & _ & Hp). unfold tagged. rewrite Hp.
  apply lookup_insert_eq.
Qed.

(** Replacing by a tagged payload changes no entry's id. *)
Lemma replace_keeps_id p s (e : device) :
  tagged p → has_id s (if has_id p.1 e then p.2 else e) = has_id s e.
Proof.
  intros Hp. destruct (has_id p.1 e) eqn:He; [|done].
  apply has_id_spec in He. unfold has_id. by rewrite Hp, He.
Qed.

Lemma existsb_replace p s (cache : list device) :
  tagged p →
  existsb (has_id s) ((λ e, if has_id p.1 e then p.2 else e) <$> cache)
  = existsb (has_id s) cache.
Proof.
  intros Hp. induction cache as [|e cache IH]; cbn; [done|].
  by rewrite IH, (replace_keeps_id p s e Hp).
Qed.

Lemma existsb_upsert_own p (cache : list device) :
  tagged p → existsb (has_id p.1) (upsert cache p.1 p.2) = true.
Proof.
  intros Hp. unfold upsert. destruct (existsb (has_id p.1) cache) eqn:Hex.
  - by rewrite existsb_replace.
  - rewrite existsb_app. cbn. apply has_id_spec in Hp. rewrite Hp.
    by rewrite orb_true_r.
Qed.

Lemma existsb_upsert_mono p s (cache : list device) :
  tagged p → existsb (has_id s) cache = true →
  existsb (has_id s) (upsert cache p.1 p.2) = true.
Proof.
  intros Hp Hs. unfold upsert. destruct (existsb (has_id p.1) cache).
  - by rewrite existsb_replace.
  - by rewrite existsb_app, Hs.
Qed.

Lemma upsert_all_cons p fetched (cache : list device) :
  upsert_all cache (p :: fetched) = upsert_all (upsert cache p.1 p.2) fetched.
Proof. reflexivity. Qed.

Lemma settle_cons p fetched (e : device) :
  settle (p :: fetched) e = settle fetched (if has_id p.1 e then p.2 else e).
Proof. reflexivity. Qed.

Lemma existsb_upsert_all_mono fetched s : ∀ cache : list device,
  Forall tagged fetched → existsb (has_id s) cache = true →
  existsb (has_id s) (upsert_all cache fetched) = true.
Proof.
  induction fetched as [|p fetched IH]; intros cache Hf Hs; [done|].
  apply Forall_cons in Hf as [Hp Hf]. rewrite upsert_all_cons. apply IH; [done|].
  by apply existsb_upsert_mono.
Qed.

(** After the pass every fetched id is in the cache. *)
Lemma upsert_all_covers fetched : ∀ cache : list device,
  Forall tagged fetched →
  Forall (λ p, existsb (has_id p.1) (upsert_all cache fetched) = true) fetched.
Proof.
  induction fetched as [|p fetched IH]; intros cache Hf; [constructor|].
  apply Forall_cons in Hf as [Hp Hf]. rewrite upsert_all_cons. constructor.
  - apply existsb_upsert_all_mono; [done|]. by apply existsb_upsert_own.
  - by apply IH.
Qed.

(** Over a cache that already holds every fetched id, the pass only
    replaces. *)
Lemma upsert_all_settles fetched : ∀ cache : list device,
  Forall tagged fetched →
  Forall (λ p, existsb (has_id p.1) cache = true) fetched →
  upsert_all cache fetched = settle fetched <$> cache.
Proof.
  induction fetched as [|p fetched IH]; intros cache Hf Hc.
  - cbn. by rewrite list_fmap_id.
  - apply Forall_cons in Hf as [Hp Hf]. apply Forall_cons in Hc as [Hpc Hc].
    rewrite upsert_all_cons. unfold upsert; rewrite Hpc. rewrite IH; [|done|].
    + rewrite <- list_fmap_compose. apply list_fmap_ext. intros i e _.
      reflexivity.
    + eapply Forall_impl; [exact Hc|]. intros q Hq. cbn in Hq.
      by rewrite existsb_replace.
Qed.

Lemma settle_keeps_id fetched : ∀ (e : device) s,
  Forall tagged fetched → has_id s (settle fetched e) = has_id s e.
Proof.
  induction fetched as [|p fetched IH]; intros e s Hf; [done|].
  apply Forall_cons in Hf as [Hp Hf]. rewrite settle_cons, IH by done.
  by apply replace_keeps_id.
Qed.

Lemma settle_snoc fetched p (e : device) :
  settle (fetched ++ [p]) e
  = (if has_id p.1 (settle fetched e) then p.2 else settle fetched e).
Proof. unfold settle. by rewrite foldl_app. Qed.

Lemma upsert_all_snoc fetched p (cache : list device) :
  upsert_all cache (fetched ++ [p]) = upsert (upsert_all cache fetched) p.1 p.2.
Proof. unfold upsert_all. by rewrite foldl_app. Qed.

Lemma elem_of_upsert (e : device) cache s info :
  e ∈ upsert cache s info → e = info ∨ (e ∈ cache ∧ has_id s e = false).
Proof.
  unfold upsert. destruct (existsb (has_id s) cache) eqn:Hex.
  - intros H. apply list_elem_of_fmap in H as (e0 & -> & He0).
    destruct (has_id s e0) eqn:Hid; [by left|by right].
  - intros H. apply elem_of_app in H as [H|H].
    + right. split; [done|]. destruct (has_id s e) eqn:Hid; [|done].
      assert (existsb (has_id s) cache = true); [|congruence].
      apply existsb_exists. exists e. split; [by apply list_elem_of_In|done].
    + apply list_elem_of_singleton in H. by left.
Qed.

(** Every entry the pass leaves is one the pass does not change. *)
Lemma upsert_all_settled fetched : ∀ (cache : list device) e,
  Forall tagged fetched →
  e ∈ upsert_all cache fetched → settle fetched e = e.
Proof.
  induction fetched as [|p fetched IH] using rev_ind; intros cache e Hf He;
    [done|].
  apply Forall_app in Hf as [Hf Hp]. rewrite Forall_singleton in Hp.
  rewrite upsert_all_snoc in He. rewrite settle_snoc.
  apply elem_of_upsert in He as [->|[He Hid]].
  - rewrite settle_keeps_id by done.
    apply has_id_spec in Hp. by rewrite Hp.
  - rewrite (IH cache e) by done. by rewrite Hid.
Qed.

(** The pass is idempotent. *)
Lemma upsert_all_idempotent fetched (cache : list device) :
  Forall tagged fetched →
  upsert_all (upsert_all cache fetched) fetched = upsert_all cache fetched.
Proof.
  intros Hf.
  rewrite (upsert_all_settles fetched (upsert_all cache fetched))
    by auto using upsert_all_covers.
  rewrite <- (list_fmap_id (upsert_all cache fetched)) at 2.
  apply list_fmap_ext. intros i e He.
  eapply upsert_all_settled; [done|]. by eapply list_elem_of_lookup_2.
Qed.

(** ** A second fetch of unchanged data *)

Lemma fixed_remote_serves listing detail :
  serves (fixed_remote listing detail) listing detail.
Proof. split; intros; reflexivity. Qed.

Lemma serves_listing net listing detail j :
  serves net listing detail → served net devices_url j → j = listing.
Proof.
  intros [Hl _] (log & hdr & rsp & Hnet & _ & Hc).
  rewrite Hl in Hnet. inversion Hnet; subst rsp. cbn in Hc. by inversion Hc.
Qed.

Lemma serves_detail net listing detail s j :
  serves net listing detail → served net (device_url_prefix +:+ s) j →
  j = detail s.
Proof.
  intros [_ Hd] (log & hdr & rsp & Hnet & _ & Hc).
  rewrite Hd in Hnet. inversion Hnet; subst rsp. cbn in Hc. by inversion Hc.
Qed.

Lemma JObj_inj (a b : device) : JObj a = JObj b → a = b.
Proof.
  intros H.
  by apply (f_equal (λ j, match j with JObj m => m | _ => ∅ end)) in H.
Qed.

Lemma merged_functional net listing detail item p q :
  serves net listing detail → merged net item p → merged net item q → p = q.
Proof.
  intros Hs (n1 & d1 & Hi1 & Hn1 & Hd1 & Hp) (n2 & d2 & Hi2 & Hn2 & Hd2 & Hq).
  destruct p as [s1 i1], q as [s2 i2]. cbn in *.
  rewrite Hi1 in Hi2. inversion Hi2; subst s2.
  rewrite Hn1 in Hn2. inversion Hn2; subst n2.
  apply (serves_detail _ _ _ _ _ Hs) in Hd1, Hd2.
  rewrite <- Hd1 in Hd2. apply JObj_inj in Hd2. by subst.
Qed.

Lemma merged_all_functional net listing detail items : ∀ f1 f2,
  serves net listing detail →
  Forall2 (merged net) items f1 → Forall2 (merged net) items f2 → f1 = f2.
Proof.
  induction items as [|item items IH]; intros f1 f2 Hs H1 H2.
  - apply Forall2_nil_inv_l in H1, H2. by subst.
  - apply Forall2_cons_inv_l in H1 as (p & f1' & Hp & H1 & ->).
    apply Forall2_cons_inv_l in H2 as (q & f2' & Hq & H2 & ->).
    f_equal; [by eapply merged_functional | by eapply IH].
Qed.

Lemma keyed_upsert cache p : tagged p → keyed cache → keyed (upsert cache p.1 p.2).
Proof.
  unfold keyed, upsert, tagged. intros Hp Hk. destruct (existsb _ _).
  - apply Forall_fmap. eapply Forall_impl; [exact Hk|]. intros e He. cbn.
    destruct (has_id p.1 e); [by rewrite Hp | done].
  - apply Forall_app. split; [done|]. apply Forall_singleton. by rewrite Hp.
Qed.

Lemma get_thermostat_info_served net listing detail fuel s w tok :
  serves net listing detail →
  access_token w = JStr tok →
  ∃ w', get_thermostat_info net (S fuel) s w = (Ret (detail s), w')
        ∧ thermostats w' = thermostats w
        ∧ access_token w' = access_token w.
Proof.
  intros [_ Hd] Htok. cbn [get_thermostat_info].
  erewrite bind_ret by (by apply auth_header_ok).
  erewrite bind_ret by reflexivity.
  rewrite Hd. cbn [status_code]. change (200 =? 200) with true. cbv iota.
  erewrite bind_ret by reflexivity.
  eexists. split; [reflexivity|]. by split.
Qed.

Lemma get_thermostats_body_served net listing detail fuel item p w tok :
  serves net listing detail →
  access_token w = JStr tok →
  merged net item p →
  keyed (thermostats w) →
  ∃ w', get_thermostats_body net (S fuel) item w = (Ret tt, w')
        ∧ thermostats w' = upsert (thermostats w) p.1 p.2
        ∧ access_token w' = access_token w.
Proof.
  intros Hs Htok (name & d & Hid & Hname & Hd & Hp) Hk.
  apply (serves_detail _ _ _ _ _ Hs) in Hd.
  destruct (get_thermostat_info_served net listing detail fuel p.1 w tok Hs Htok)
    as (w1 & Hinfo & Hc1 & Ht1).
  unfold get_thermostats_body.
  erewrite bind_ret by (rewrite Hid; reflexivity). cbv beta iota.
  erewrite bind_ret by exact Hinfo.
  erewrite bind_ret by (rewrite Hname; reflexivity).
  erewrite bind_ret by (rewrite <- Hd; reflexivity).
  cbv beta zeta. rewrite <- Hp.
  erewrite bind_ret by (apply scan_cache_ok; by rewrite Hc1).
  rewrite Hc1. unfold upsert.
  destruct (existsb (has_id p.1) (thermostats w)) eqn:Hex.
  - eexists. split; [reflexivity|]. split; [reflexivity|exact Ht1].
  - erewrite bind_ret by reflexivity. eexists. split; [reflexivity|].
    cbn. by rewrite no_match_fmap.
Qed.

Lemma for_each_body_served net listing detail fuel items : ∀ fetched w tok,
  serves net listing detail →
  access_token w = JStr tok →
  Forall2 (merged net) items fetched →
  (items ≠ [] → keyed (thermostats w)) →
  ∃ w', for_each items (get_thermostats_body net (S fuel)) w = (Ret tt, w')
        ∧ thermostats w' = upsert_all (thermostats w) fetched
        ∧ access_token w' = access_token w
        ∧ (items ≠ [] → keyed (thermostats w')).
Proof.
  unfold for_each.
  induction items as [|item items IH]; intros fetched w tok Hs Htok Hf Hk.
  - apply Forall2_nil_inv_l in Hf as ->. exists w. by repeat split.
  - apply Forall2_cons_inv_l in Hf as (p & fetched' & Hp & Hf & ->).
    specialize (Hk ltac:(done)).
    destruct (get_thermostats_body_served net listing detail fuel item p w tok
                Hs Htok Hp Hk) as (w1 & Hb & Hc1 & Ht1).
    assert (Hk1 : keyed (thermostats w1)).
    { rewrite Hc1. apply keyed_upsert; [by eapply merged_tagged|done]. }
    destruct (IH fetched' w1 tok Hs ltac:(congruence) Hf ltac:(done))
      as (w2 & Hl & Hc2 & Ht2 & Hk2).
    exists w2. cbn [for_fold]. erewrite bind_ret by exact Hb.
    split; [exact Hl|]. rewrite upsert_all_cons, <- Hc1.
    repeat split; [done|congruence|].
    intros _. destruct items as [|i items]; [|by apply Hk2].
    apply Forall2_nil_inv_l in Hf as ->. cbn in Hl.
    apply ret_inv in Hl as [_ ->]. exact Hk1.
Qed.

Lemma get_thermostats_served net listing detail fuel items fetched w tok :
  serves net listing detail →
  access_token w = JStr tok →
  py_iter listing = Val items →
  Forall2 (merged net) items fetched →
  (items ≠ [] → keyed (thermostats w)) →
  ∃ w', get_thermostats net (S fuel) w
        = (Ret (Some (upsert_all (thermostats w) fetched)), w')
        ∧ thermostats w' = upsert_all (thermostats w) fetched
        ∧ access_token w' = access_token w
        ∧ (items ≠ [] → keyed (thermostats w')).
Proof.
  intros Hs Htok Hi Hf Hk. cbn [get_thermostats].
  erewrite bind_ret by (by apply auth_header_ok).
  erewrite bind_ret by reflexivity.
  rewrite (proj1 Hs). cbn [status_code]. change (200 =? 200) with true. cbv iota.
  erewrite bind_ret by reflexivity.
  erewrite bind_ret by reflexivity.
  erewrite bind_ret by reflexivity.
  erewrite bind_ret by (rewrite Hi; reflexivity).
  match goal with |- context [bind (for_each _ _) _ ?w0] =>
    destruct (for_each_body_served net listing detail fuel items fetched w0 tok
                Hs Htok Hf Hk) as (w1 & Hl & Hc1 & Ht1 & Hk1) end.
  erewrite bind_ret by exact Hl.
  erewrite bind_ret by reflexivity.
  exists w1. cbn in Hc1, Ht1. unfold ret.
  split; [by rewrite Hc1|]. split; [exact Hc1|]. split; [exact Ht1|exact Hk1].
Qed.

Lemma get_thermostats_token net fuel w r w' :
  get_thermostats net fuel w = (Ret r, w') → ∃ tok, access_token w = JStr tok.
Proof.
  destruct fuel as [|fuel]; [discriminate|]. cbn [get_thermostats]. intros H.
  apply bind_ret_inv in H as (hdr & w1 & Hh & _).
  unfold auth_header in Hh.
  apply bind_ret_inv in Hh as (t & w2 & Hg & Hh). apply gets_inv in Hg as [-> ->].
  apply bind_ret_inv in Hh as (b & w3 & Hb & _).
  apply lift_ret_inv in Hb as [Hb _].
  destruct (access_token w); try discriminate. eauto.
Qed.

(** X2: while the vendor serves an unchanged listing and unchanged details, a
    fetch that returned the cache is followed by a fetch that returns the
    same cache: the second pass changes no entry and adds none. *)
Theorem fetch_idempotent net listing detail fuel w cache w1 :
  serves net listing detail →
  get_thermostats net fuel w = (Ret (Some cache), w1) →
  ∃ w2, get_thermostats net fuel w1 = (Ret (Some cache), w2)
        ∧ thermostats w2 = cache.
Proof.
  intros Hs H.
  destruct (get_thermostats_token _ _ _ _ _ H) as [tok Htok].
  pose proof H as Hinv.
  apply get_thermostats_inv in Hinv
    as (l & items & fetched & Hl & Hi & Hf & Hc & Hc1 & Hk).
  apply (serves_listing _ _ _ _ Hs) in Hl. subst l.
  destruct fuel as [|fuel]; [discriminate|].
  destruct (get_thermostats_served net listing detail fuel items fetched w tok
              Hs Htok Hi Hf Hk) as (w1' & Hrun & _ & Ht1 & Hk1).
  rewrite H in Hrun. inversion Hrun; subst w1'.
  destruct (get_thermostats_served net listing detail fuel items fetched w1 tok
              Hs ltac:(congruence) Hi Hf Hk1) as (w2 & Hrun2 & Hc2 & _ & _).
  assert (Hid : upsert_all (thermostats w1) fetched = cache).
  { rewrite Hc1, Hc. apply upsert_all_idempotent.
    clear -Hf. induction Hf; constructor; eauto using merged_tagged. }
  rewrite Hid in Hrun2, Hc2. exists w2. rewrite <- Hc. by split.
Qed.

Lemma fetch_idempotent_witness :
  ∃ w2,
    get_thermostats sample_remote 1 (get_thermostats sample_remote 1 sample_world).2
    = (Ret (Some (thermostats (get_thermostats sample_remote 1 sample_world).2)), w2)
    ∧ thermostats w2
      = thermostats (get_thermostats sample_remote 1 sample_world).2.
Proof.
  apply (fetch_idempotent sample_remote sample_listing sample_detail 1 sample_world).
  - apply fixed_remote_serves.
  - apply sample_fetch_returns.
Defined.

(** ** Ids in the cache *)

Lemma ids_app (c1 c2 : list device) : ids (c1 ++ c2) = ids c1 ++ ids c2.
Proof. unfold ids. apply omap_app. Qed.

Lemma existsb_has_id s (cache : list device) :
  existsb (has_id s) cache = true ↔ s ∈ ids cache.
Proof.
  unfold ids. rewrite existsb_exists, list_elem_of_omap. split.
  - intros (e & He & Hid). exists e. split; [by apply list_elem_of_In|].
    by apply has_id_id_of.
  - intros (e & He & Hid). exists e. split; [by apply list_elem_of_In|].
    by apply has_id_id_of.
Qed.

Lemma ids_replace p (cache : list device) :
  tagged p → ids ((λ e, if has_id p.1 e then p.2 else e) <$> cache) = ids cache.
Proof.
  intros Hp. unfold ids. induction cache as [|e cache IH]; cbn; [done|].
  rewrite IH. destruct (has_id p.1 e) eqn:He; [|done].
  apply has_id_id_of in He. rewrite He.
  apply has_id_spec, has_id_id_of in Hp. by rewrite Hp.
Qed.

Lemma ids_upsert p (cache : list device) :
  tagged p →
  ids (upsert cache p.1 p.2)
  = if bool_decide (p.1 ∈ ids cache) then ids cache else ids cache ++ [p.1].
Proof.
  intros Hp. unfold upsert.
  destruct (existsb (has_id p.1) cache) eqn:Hex.
  - rewrite bool_decide_eq_true_2 by (by apply existsb_has_id).
    by apply ids_replace.
  - rewrite bool_decide_eq_false_2.
    + rewrite ids_app. f_equal. unfold ids. cbn.
      apply has_id_spec, has_id_id_of in Hp. by rewrite Hp.
    + intros Hin. apply existsb_has_id in Hin. congruence.
Qed.

(** The ids after the pass: the ids before, in place, then the new ones in
    the order the listing first names them. *)
Lemma ids_upsert_all fetched : ∀ cache : list device,
  Forall tagged fetched →
  ids (upsert_all cache fetched) = ids cache ++ fresh_ids (ids cache) fetched.*1.
Proof.
  induction fetched as [|p fetched IH]; intros cache Hf.
  - cbn. by rewrite app_nil_r.
  - apply Forall_cons in Hf as [Hp Hf].
    rewrite upsert_all_cons, IH, (ids_upsert p cache Hp) by done.
    cbn [fmap list_fmap fresh_ids]. destruct (bool_decide (p.1 ∈ ids cache)).
    + reflexivity.
    + by rewrite <- (assoc_L (++)).
Qed.

Lemma fresh_ids_new remote : ∀ seen s, s ∈ fresh_ids seen remote → s ∉ seen.
Proof.
  induction remote as [|r remote IH]; intros seen s; cbn.
  - by intros ?%elem_of_nil.
  - case_bool_decide as Hr; [by apply IH|].
    intros [->|Hin]%elem_of_cons; [done|].
    apply IH in Hin. intros Hs. apply Hin, elem_of_app. by left.
Qed.

Lemma fresh_ids_NoDup remote : ∀ seen,
  NoDup seen → NoDup (seen ++ fresh_ids seen remote).
Proof.
  induction remote as [|r remote IH]; intros seen Hnd; cbn.
  - by rewrite app_nil_r.
  - case_bool_decide as Hr; [by apply IH|].
    change (r :: fresh_ids (seen ++ [r]) remote)
      with ([r] ++ fresh_ids (seen ++ [r]) remote).
    rewrite (assoc_L (++)). apply IH.
    apply NoDup_app. split; [done|]. split; [|apply NoDup_singleton].
    intros x Hx ->%list_elem_of_singleton. done.
Qed.

Lemma str_keyed_upsert p (cache : list device) :
  tagged p → str_keyed cache → str_keyed (upsert cache p.1 p.2).
Proof.
  unfold str_keyed, upsert. intros Hp Hk.
  assert (Hi : is_Some (id_of p.2)).
  { apply has_id_spec, has_id_id_of in Hp. by rewrite Hp. }
  destruct (existsb _ _).
  - apply Forall_fmap. eapply Forall_impl; [exact Hk|]. intros e He. cbn.
    by destruct (has_id p.1 e).
  - apply Forall_app. split; [done|]. by apply Forall_singleton.
Qed.

Lemma str_keyed_upsert_all fetched : ∀ cache : list device,
  Forall tagged fetched → str_keyed cache → str_keyed (upsert_all cache fetched).
Proof.
  induction fetched as [|p fetched IH]; intros cache Hf Hk; [done|].
  apply Forall_cons in Hf as [Hp Hf]. rewrite upsert_all_cons.
  apply IH; [done|]. by apply str_keyed_upsert.
Qed.

Lemma str_keyed_ids (cache : list device) :
  str_keyed cache → (Some <$> ids cache) = id_of <$> cache.
Proof.
  unfold str_keyed, ids. induction 1 as [|e cache [s He] Hk IH]; cbn; [done|].
  rewrite He. cbn. by rewrite IH.
Qed.

Lemma merged_all_tagged net items fetched :
  Forall2 (merged net) items fetched → Forall tagged fetched.
Proof. induction 1; constructor; eauto using merged_tagged. Qed.

Lemma merged_all_ids net items fetched :
  Forall2 (merged net) items fetched →
  Forall2 (λ item s, py_getitem item "id" = Val (JStr s)) items fetched.*1.
Proof.
  induction 1 as [|item p items fetched (n & d & Hid & _) _ IH]; cbn;
    constructor; auto.
Qed.

Lemma fetches_invariant w w' :
  fetches w w' →
  str_keyed (thermostats w) ∧ NoDup (ids (thermostats w)) →
  str_keyed (thermostats w') ∧ NoDup (ids (thermostats w')).
Proof.
  induction 1 as [w|w net fuel cache w1 w2 Hget _ IH]; [done|].
  intros [Hk Hnd]. apply IH.
  apply get_thermostats_inv in Hget
    as (listing & items & fetched & _ & _ & Hf & -> & -> & _).
  apply merged_all_tagged in Hf. split.
  - by apply str_keyed_upsert_all.
  - rewrite ids_upsert_all by done. by apply fresh_ids_NoDup.
Qed.

(** X3: from an empty cache, after any sequence of fetches that returned the
    cache: every entry has a [str] id, no two entries share an id, and the
    next such fetch keeps the ids it finds in their places and appends the
    new ones in the order the listing first names them. *)
Theorem fetched_ids_distinct w0 w :
  thermostats w0 = [] →
  fetches w0 w →
  str_keyed (thermostats w)
  ∧ NoDup (ids (thermostats w))
  ∧ (∀ i j e e',
       thermostats w !! i = Some e → thermostats w !! j = Some e' →
       e !! "id" = e' !! "id" → i = j)
  ∧ (∀ net fuel cache w',
       get_thermostats net fuel w = (Ret (Some cache), w') →
       ∃ listing items remote,
         served net devices_url listing
         ∧ py_iter listing = Val items
         ∧ Forall2 (λ item s, py_getitem item "id" = Val (JStr s)) items remote
         ∧ ids cache
           = ids (thermostats w) ++ fresh_ids (ids (thermostats w)) remote).
Proof.
  intros H0 Hf.
  destruct (fetches_invariant w0 w Hf) as [Hk Hnd].
  { rewrite H0. split; constructor. }
  split; [exact Hk|]. split; [exact Hnd|]. split.
  - intros i j e e' Hi Hj He.
    assert (Hid : id_of e = id_of e') by (unfold id_of; by rewrite He).
    pose proof (str_keyed_ids _ Hk) as Hids.
    assert (Hnd' : NoDup (id_of <$> thermostats w)).
    { rewrite <- Hids. apply (NoDup_fmap_2 _). exact Hnd. }
    eapply NoDup_lookup; [exact Hnd'| |].
    + rewrite list_lookup_fmap, Hi. reflexivity.
    + rewrite list_lookup_fmap, Hj. cbn. by rewrite Hid.
  - intros net fuel cache w' Hget.
    apply get_thermostats_inv in Hget
      as (listing & items & fetched & Hl & Hi & Hm & -> & _ & _).
    exists listing, items, fetched.*1.
    split; [exact Hl|]. split; [exact Hi|].
    split; [by eapply merged_all_ids|].
    apply ids_upsert_all. by eapply merged_all_tagged.
Qed.

Lemma fetched_ids_distinct_witness :
  NoDup (ids (thermostats (get_thermostats sample_remote 1 fresh_world).2)).
Proof.
  apply (fetched_ids_distinct fresh_world
           (get_thermostats sample_remote 1 fresh_world).2).
  - reflexivity.
  - apply (fetches_step fresh_world sample_remote 1
             (thermostats (get_thermostats sample_remote 1 fresh_world).2)
             (get_thermostats sample_remote 1 fresh_world).2).
    + vm_compute. reflexivity.
    + apply fetches_refl.
Defined.

(** ** Termination of the commands *)

Lemma settles_ret {A} (a : A) : settles (ret a).
Proof. intros w. discriminate. Qed.

Lemma settles_raise {A} e : settles (@raise A e).
Proof. intros w. discriminate. Qed.

Lemma settles_gets {A} (f : world → A) : settles (gets f).
Proof. intros w. discriminate. Qed.

Lemma settles_attr {A} (f : world → option A) : settles (attr f).
Proof. intros w. unfold attr. by destruct (f w). Qed.

Lemma settles_modify f : settles (modify f).
Proof. intros w. discriminate. Qed.

Lemma settles_lift {A} (r : res A) : settles (lift r).
Proof. destruct r; [apply settles_ret | apply settles_raise]. Qed.

Lemma settles_http net rq : settles (http net rq).
Proof. intros w. discriminate. Qed.

Lemma settles_bind {A B} (m : M A) (k : A → M B) :
  settles m → (∀ a, settles (k a)) → settles (bind m k).
Proof.
  intros Hm Hk w. unfold bind. specialize (Hm w).
  destruct (m w) as [[a|e|] w1]; cbn in *; [apply Hk| discriminate | done].
Qed.

Lemma settles_bind_ret {A B} (a : A) (k : A → M B) :
  settles (k a) → settles (bind (ret a) k).
Proof. intros Hk w. apply Hk. Qed.

Lemma settles_default_to arg d : settles d → settles (default_to arg d).
Proof. intros Hd. destruct arg; cbn; auto using settles_ret. Qed.

Ltac settle_step :=
  match goal with
  | |- context [_ && false] => rewrite andb_false_r; cbv beta iota
  | |- settles (bind (ret _) _) => apply settles_bind_ret; cbv beta iota
  | |- settles (bind _ _) => apply settles_bind; [ | intros ? ]
  | |- settles (ret _) => apply settles_ret
  | |- settles (raise _) => apply settles_raise
  | |- settles (gets _) => apply settles_gets
  | |- settles (attr _) => apply settles_attr
  | |- settles (lift _) => apply settles_lift
  | |- settles (modify _) => apply settles_modify
  | |- settles (http _ _) => apply settles_http
  | |- settles (default_to _ _) => apply settles_default_to
  | |- settles (match ?x with _ => _ end) => destruct x eqn:?
  end.
Ltac settle := repeat settle_step.


Lemma settles_auth_header : settles auth_header.
Proof. unfold auth_header. settle. Qed.

Lemma settles_config_from_file fn c : settles (config_from_file fn c).
Proof. unfold config_from_file. settle. Qed.

Lemma settles_write_tokens_to_file : settles write_tokens_to_file.
Proof. unfold write_tokens_to_file. settle; apply settles_config_from_file. Qed.

Lemma settles_request_tokens net : settles (request_tokens net).
Proof. unfold request_tokens. settle; apply settles_write_tokens_to_file. Qed.

Lemma settles_refresh_tokens net : settles (refresh_tokens net).
Proof.
  unfold refresh_tokens. settle;
    first [ apply settles_write_tokens_to_file | apply settles_request_tokens ].
Qed.

Lemma settles_cached index key : settles (cached index key).
Proof. unfold cached. settle. Qed.

(** A call that is itself the retry makes no further call. *)
Lemma make_request_retried_settles net fuel index body msg retry_count :
  retry_count ≠ 0 →
  settles (make_request net (S fuel) index body msg retry_count).
Proof.
  intros Hrc. cbn [make_request].
  apply Z.eqb_neq in Hrc. rewrite Hrc.
  settle; apply settles_auth_header.
Qed.

Lemma make_request_settles net fuel index body msg retry_count :
  settles (make_request net (S (S fuel)) index body msg retry_count).
Proof.
  pose proof (make_request_retried_settles net fuel) as Hretry.
  revert Hretry. generalize (S fuel) as fuel'. intros fuel' Hretry.
  cbn [make_request].
  destruct (retry_count =? 0) eqn:Hrc.
  - apply Z.eqb_eq in Hrc. subst retry_count.
    settle; try apply settles_auth_header; try apply settles_refresh_tokens.
    all: apply Hretry; lia.
  - settle; apply settles_auth_header.
Qed.

Lemma extends_bind {A B} (m : M A) (k k' : A → M B) w :
  (∀ a w1, extends (k a w1) (k' a w1)) → extends (bind m k w) (bind m k' w).
Proof.
  intros H. unfold bind. destruct (m w) as [[a|e|] w1]; [apply H|by right..].
Qed.

Ltac extend_step :=
  cbv beta;
  match goal with
  | |- extends ?x ?x => right; reflexivity
  | |- extends (bind ?m _ _) (bind ?m _ _) => apply extends_bind; intros ? ?
  | |- extends ((match ?x with _ => _ end) _) _ => destruct x
  end.

(** More fuel changes nothing for a call that did not run out. *)
Lemma make_request_more_fuel net fuel : ∀ index body msg retry_count w,
  extends (make_request net fuel index body msg retry_count w)
          (make_request net (S fuel) index body msg retry_count w).
Proof.
  induction fuel as [|fuel IH]; intros index body msg retry_count w.
  - by left.
  - cbn [make_request] in IH |- *. repeat extend_step. apply IH.
Qed.

(** Two nested calls are all [make_request] ever makes: with that much fuel
    it returns or raises, and more fuel gives the same. *)
Lemma make_request_depth net fuel index body msg retry_count w :
  (make_request net 2 index body msg retry_count w).1 ≠ Diverge
  ∧ make_request net (2 + fuel) index body msg retry_count w
    = make_request net 2 index body msg retry_count w.
Proof.
  split; [apply make_request_settles|].
  induction fuel as [|fuel IH]; [reflexivity|].
  destruct (make_request_more_fuel net (2 + fuel) index body msg retry_count w)
    as [Hd|He].
  - rewrite IH in Hd.
    destruct (make_request_settles net 0 index body msg retry_count w Hd).
  - rewrite <- IH, He. reflexivity.
Qed.

Lemma settles_run_command net c : settles (run_command net c).
Proof.
  destruct c; unfold run_command;
    unfold set_hvac_mode, set_thermostat_schedule, set_fan_mode, set_fan_speed,
      set_fan_clean, set_temp_hold, set_permanent_hold, set_away, resume_program,
      set_fan_schedule, set_night_mode, set_humidity,
      set_thermostat_schedule_body, set_temp_hold_body, set_permanent_hold_body,
      set_away_body, set_humidity_body, retry_depth;
    repeat first [ apply make_request_settles | apply settles_cached | settle_step ].
Qed.

(** X4: every command returns or raises: [make_request] never makes more than
    two nested calls, whatever the transport answers, and giving it more
    fuel than two changes nothing. *)
Theorem commands_settle net :
  (∀ c w, (run_command net c w).1 ≠ Diverge)
  ∧ (∀ fuel index body msg retry_count w,
       (make_request net 2 index body msg retry_count w).1 ≠ Diverge
       ∧ make_request net (2 + fuel) index body msg retry_count w
         = make_request net 2 index body msg retry_count w).
Proof.
  split.
  - intros c w. apply settles_run_command.
  - intros. apply make_request_depth.
Qed.

(** ** The retry of [make_request] *)

(** X5: after "authorization expired" and a refresh that returned [True], the
    retried call gets the body where the index belongs: a dict body, which is
    what every builder passes, is no list index, so the call raises
    [TypeError] in the world the refresh left, with nothing sent again. *)
Theorem retry_raises net fuel index (fields : device) msg w entry s tok rsp j ok :
  let rq := Request PUT (device_url_prefix +:+ s)
              {[ "Content-Type" := "application/json;charset=UTF-8";
                 "Authorization" := "Bearer " +:+ tok ]}
              (Some (JObj fields)) in
  let w1 := set_sent (sent w ++ [rq]) w in
  py_index (thermostats w) index = Val entry →
  entry !! "id" = Some (JStr s) →
  access_token w = JStr tok →
  net (sent w) rq = Answer rsp →
  status_code rsp = 401 →
  content rsp = Some j →
  py_getitem j "error" = Val (JStr "authorization_expired") →
  (refresh_tokens net w1).1 = Ret ok →
  py_truthy ok = true →
  make_request net (S (S fuel)) index (JObj fields) msg 0 w
  = (Raise TypeError, (refresh_tokens net w1).2).
Proof.
  intros rq w1 Hi Hid Htok Hnet Hst Hc Herr Hok Htruthy.
  remember (S fuel) as fuel' eqn:Hfuel. cbn [make_request].
  erewrite bind_ret by reflexivity.
  erewrite bind_ret by (rewrite Hi; reflexivity).
  erewrite bind_ret by (cbn; rewrite Hid; reflexivity).
  erewrite bind_ret by reflexivity.
  erewrite bind_ret by (by apply auth_header_ok).
  erewrite bind_ret by reflexivity.
  fold rq. rewrite Hnet, Hst. change (401 =? 200) with false.
  change ((401 =? 401) && (0 =? 0)) with true. cbv iota.
  erewrite bind_ret; cycle 1.
  { erewrite bind_ret by (unfold resp_json; rewrite Hc; reflexivity).
    erewrite bind_ret by (rewrite Herr; reflexivity). reflexivity. }
  cbn [str_eq]. rewrite String.eqb_refl.
  fold w1. destruct (refresh_tokens net w1) as [r w2] eqn:Hr. cbn in Hok.
  subst r. erewrite bind_ret by exact Hr. rewrite Htruthy.
  subst fuel'. cbn [make_request]. reflexivity.
Qed.

Lemma retry_raises_witness :
  (set_hvac_mode always_expired (JInt 0) (JStr "heat") sample_world).1
  = Raise TypeError.
Proof.
  pose proof (retry_raises always_expired 0 (JInt 0)
                (set_hvac_mode_body (JStr "heat")) "set HVAC mode" sample_world
                home "0000-1111" "token-1"
                (Response 401 (Some (JObj {[ "error" := JStr "authorization_expired" ]})))
                (JObj {[ "error" := JStr "authorization_expired" ]}) (JBool true)) as H.
  cbv zeta in H. unfold set_hvac_mode, retry_depth.
  rewrite H; reflexivity.
Defined.

Ltac make_request_start Hi Hid Htok :=
  cbn [make_request];
  erewrite bind_ret by reflexivity;
  erewrite bind_ret by (rewrite Hi; reflexivity);
  erewrite bind_ret by (cbn; rewrite Hid; reflexivity);
  erewrite bind_ret by reflexivity;
  erewrite bind_ret by (by apply auth_header_ok);
  erewrite bind_ret by reflexivity.

(** X6: what [make_request] does with the reply to its one PUT, on a valid
    index whose entry has a [str] id and with a [str] access token, in every
    case but a first-try 401 "authorization expired".  A connection error
    returns [None]; a 200 is handed back as it is.  An answer other than 200
    that is no first-try 401 returns [None] if its body is JSON, and raises
    [JSONDecodeError] if it is not (the log line formats [request.json()]).
    A first-try 401 raises [JSONDecodeError] if its body is not JSON, raises
    what [request.json()['error']] raises if that has no ['error'] (a
    [KeyError] for a dict), and returns [None] for any other ['error'] than
    ['authorization_expired'].  In each of these cases one request is sent,
    no token is refreshed and the session is unchanged but for the request
    logged. *)
Theorem make_request_single_attempt net fuel index body msg retry_count w entry s tok :
  let rq := Request PUT (device_url_prefix +:+ s)
              {[ "Content-Type" := "application/json;charset=UTF-8";
                 "Authorization" := "Bearer " +:+ tok ]}
              (Some body) in
  let w1 := set_sent (sent w ++ [rq]) w in
  py_index (thermostats w) index = Val entry →
  entry !! "id" = Some (JStr s) →
  access_token w = JStr tok →
  (net (sent w) rq = ConnectionFailed →
   make_request net (S fuel) index body msg retry_count w = (Ret None, w1))
  ∧ (∀ rsp, net (sent w) rq = Answer rsp → status_code rsp = 200 →
       make_request net (S fuel) index body msg retry_count w = (Ret (Some rsp), w1))
  ∧ (∀ rsp, net (sent w) rq = Answer rsp → status_code rsp ≠ 200 →
       status_code rsp ≠ 401 ∨ retry_count ≠ 0 →
       make_request net (S fuel) index body msg retry_count w
       = (match content rsp with
          | Some _ => Ret None
          | None => Raise JSONDecodeError
          end, w1))
  ∧ (∀ rsp, net (sent w) rq = Answer rsp → status_code rsp = 401 →
       retry_count = 0 →
       match content rsp with
       | None =>
           make_request net (S fuel) index body msg retry_count w
           = (Raise JSONDecodeError, w1)
       | Some j =>
           match py_getitem j "error" with
           | Err e =>
               make_request net (S fuel) index body msg retry_count w
               = (Raise e, w1)
           | Val e =>
               str_eq "authorization_expired" e = false →
               make_request net (S fuel) index body msg retry_count w
               = (Ret None, w1)
           end
       end).
Proof.
  intros rq w1 Hi Hid Htok. split; [|split; [|split]].
  - intros Hnet. make_request_start Hi Hid Htok. fold rq. rewrite Hnet.
    reflexivity.
  - intros rsp Hnet Hst. make_request_start Hi Hid Htok. fold rq.
    rewrite Hnet, Hst. reflexivity.
  - intros rsp Hnet Hst Hwhy. make_request_start Hi Hid Htok. fold rq.
    rewrite Hnet. apply Z.eqb_neq in Hst. rewrite Hst.
    assert (G : (status_code rsp =? 401) && (retry_count =? 0) = false).
    { apply andb_false_iff. destruct Hwhy as [H|H]; [left|right];
        by apply Z.eqb_neq. }
    rewrite G. erewrite bind_ret by reflexivity. cbv beta iota.
    unfold bind, resp_json. by destruct (content rsp).
  - intros rsp Hnet Hst Hrc. subst retry_count.
    assert (Hrun : make_request net (S fuel) index body msg 0 w
              = (expired <- (j <- lift (resp_json rsp) ;;
                             e <- lift (py_getitem j "error") ;;
                             ret (str_eq "authorization_expired" e)) ;;
                 if expired then
                   ok <- refresh_tokens net ;;
                   if py_truthy ok then
                     make_request net fuel body (JStr s) msg (0 + 1)
                   else ret None
                 else lift (resp_json rsp) ;; ret None) w1).
    { make_request_start Hi Hid Htok. fold rq. rewrite Hnet, Hst. reflexivity. }
    unfold resp_json in Hrun. destruct (content rsp) as [j|].
    + destruct (py_getitem j "error") as [e|e] eqn:He.
      * intros Hne. rewrite Hrun.
        erewrite bind_ret; cycle 1.
        { erewrite bind_ret by reflexivity.
          erewrite bind_ret by (rewrite He; reflexivity). reflexivity. }
        cbv beta. rewrite Hne. cbv iota.
        erewrite bind_ret by reflexivity. reflexivity.
      * rewrite Hrun. unfold bind. cbn [lift ret raise]. rewrite He.
        reflexivity.
    + rewrite Hrun. reflexivity.
Qed.

Lemma make_request_single_attempt_witness :
  make_request offline 1 (JInt 0) (JObj resume_program_body) "resume program" 0
    sample_world
  = (Ret None,
     set_sent [Request PUT (device_url_prefix +:+ "0000-1111")
                 {[ "Content-Type" := "application/json;charset=UTF-8";
                    "Authorization" := "Bearer " +:+ "token-1" ]}
                 (Some (JObj resume_program_body))] sample_world).
Proof.
  apply (make_request_single_attempt offline 0 (JInt 0) (JObj resume_program_body)
           "resume program" 0 sample_world home "0000-1111" "token-1");
    reflexivity.
Defined.

(** ** Commands on a bad index *)

Lemma reads_only_ret {A} (a : A) : reads_only (ret a).
Proof. by intros w. Qed.

Lemma reads_only_raise {A} e : reads_only (@raise A e).
Proof. by intros w. Qed.

Lemma reads_only_gets {A} (f : world → A) : reads_only (gets f).
Proof. by intros w. Qed.

Lemma reads_only_lift {A} (r : res A) : reads_only (lift r).
Proof. destruct r; [apply reads_only_ret | apply reads_only_raise]. Qed.

Lemma reads_only_bind {A B} (m : M A) (k : A → M B) :
  reads_only m → (∀ a, reads_only (k a)) → reads_only (bind m k).
Proof.
  intros Hm Hk w. unfold bind. specialize (Hm w).
  destruct (m w) as [[a|e|] w1]; cbn in *; subst; [apply Hk|done..].
Qed.

Lemma reads_only_default_to arg d : reads_only d → reads_only (default_to arg d).
Proof. intros Hd. destruct arg; cbn; auto using reads_only_ret. Qed.

Ltac reads_step :=
  match goal with
  | |- reads_only (bind _ _) => apply reads_only_bind; [ | intros ? ]
  | |- reads_only (ret _) => apply reads_only_ret
  | |- reads_only (raise _) => apply reads_only_raise
  | |- reads_only (gets _) => apply reads_only_gets
  | |- reads_only (lift _) => apply reads_only_lift
  | |- reads_only (default_to _ _) => apply reads_only_default_to
  | |- reads_only (cached _ _) => unfold cached
  | |- reads_only (match ?x with _ => _ end) => destruct x
  end.

Lemma make_request_bad_index net fuel index body msg retry_count w e :
  py_index (thermostats w) index = Err e →
  make_request net (S fuel) index body msg retry_count w = (Raise e, w).
Proof.
  intros Hi. cbn [make_request].
  erewrite bind_ret by reflexivity. unfold bind. rewrite Hi. reflexivity.
Qed.

(** A builder that computed its fieldset by reading only, followed by
    [make_request] on a bad index. *)
Lemma built_on_bad_index net (build : M device) index msg w e :
  reads_only build → settles build →
  py_index (thermostats w) index = Err e →
  ∃ e', (body <- build ;;
         make_request net retry_depth index (JObj body) msg 0) w = (Raise e', w).
Proof.
  intros Hr Hs Hi. unfold bind. specialize (Hr w). specialize (Hs w).
  destruct (build w) as [[body|e'|] w1]; cbn [fst snd] in *; subst w1.
  - exists e. apply (make_request_bad_index net 1). exact Hi.
  - by exists e'.
  - done.
Qed.

(** X7: a command called with something that is no position of the cache -- an
    index out of range, or a value that is no [int] -- raises, sends nothing
    and leaves the session as it was. *)
Theorem command_on_bad_index net c w e :
  py_index (thermostats w) (command_index c) = Err e →
  ∃ e', run_command net c w = (Raise e', w).
Proof.
  intros Hi. destruct c; cbn [command_index] in Hi; unfold run_command;
    unfold set_hvac_mode, set_thermostat_schedule, set_fan_mode, set_fan_speed,
      set_fan_clean, set_temp_hold, set_permanent_hold, set_away, resume_program,
      set_fan_schedule, set_night_mode, set_humidity.
  all: try (exists e; apply (make_request_bad_index net 1); exact Hi).
  all: apply (built_on_bad_index _ _ _ _ _ e); [ | | exact Hi ].
  all: unfold set_thermostat_schedule_body, set_temp_hold_body,
         set_permanent_hold_body, set_away_body, set_humidity_body.
  all: first [ progress repeat reads_step
             | repeat first [ apply settles_cached | settle_step ] ].
Qed.

Lemma command_on_bad_index_witness :
  ∃ e', run_command offline (SetTempHold (JInt 1) JNull JNull JNull) sample_world
        = (Raise e', sample_world).
Proof.
  apply (command_on_bad_index offline (SetTempHold (JInt 1) JNull JNull JNull)
           sample_world IndexError).
  reflexivity.
Defined.

(** ** Tokens *)




#[local] Instance same_standing_preorder : PreOrder same_standing.
Proof.
  split; [by intros ?|]. intros x y z [] []. split; congruence.
Qed.

Lemma same_standing_request_tokens net :
  preserves same_standing (request_tokens net).
Proof. apply preserves_request_tokens; try typeclasses eauto; by intros. Qed.

(** A refused refresh falls back to the login and returns [None]. *)
Lemma refresh_refused net w rsp :
  let post := Request POST token_url token_header
                (Some (JObj {[ "email" := user_email w;
                               "refreshToken" := refresh_token w ]})) in
  net (sent w) post = Answer rsp →
  status_code rsp ≠ 200 →
  refresh_tokens net w
  = (request_tokens net ;; ret JNull) (set_sent (sent w ++ [post]) w).
Proof.
  intros post Hpost Hst. apply Z.eqb_neq in Hst. unfold refresh_tokens.
  erewrite bind_ret by reflexivity. erewrite bind_ret by reflexivity.
  erewrite bind_ret by reflexivity. fold post. rewrite Hpost, Hst. reflexivity.
Qed.

(** X9: when the vendor answers a fetch with anything but 200 and then refuses
    the refresh, [get_thermostats] gives up: it does not call itself again
    (one call deep is all it goes, whatever the fuel), it returns [None] if it
    returns, and the session is left unauthenticated -- also when the login
    that [refresh_tokens] falls back to has just stored new tokens. *)
Theorem rejected_refresh_gives_up net fuel w tok rsp rsp2 :
  let get := Request GET devices_url
               {[ "Content-Type" := "application/json;charset=UTF-8";
                  "Authorization" := "Bearer " +:+ tok ]} None in
  let post := Request POST token_url token_header
                (Some (JObj {[ "email" := user_email w;
                               "refreshToken" := refresh_token w ]})) in
  access_token w = JStr tok →
  net (sent w) get = Answer rsp →
  status_code rsp ≠ 200 →
  net (sent w ++ [get]) post = Answer rsp2 →
  status_code rsp2 ≠ 200 →
  get_thermostats net (S fuel) w = get_thermostats net 1 w
  ∧ (get_thermostats net 1 w).1 ≠ Diverge
  ∧ (∀ r, (get_thermostats net 1 w).1 = Ret r → r = None)
  ∧ authenticated (get_thermostats net 1 w).2 = false
  ∧ thermostats (get_thermostats net 1 w).2 = thermostats w.
Proof.
  intros get post Htok Hget Hst Hpost Hst2.
  set (w3 := set_sent ((sent w ++ [get]) ++ [post])
               (set_authenticated false (set_sent (sent w ++ [get]) w))).
  assert (Hrun : ∀ n,
            get_thermostats net (S n) w = (request_tokens net ;; ret None) w3).
  { intros n. cbn [get_thermostats].
    erewrite bind_ret by (by apply auth_header_ok).
    erewrite bind_ret by reflexivity. fold get. rewrite Hget.
    apply Z.eqb_neq in Hst. rewrite Hst.
    erewrite bind_ret by reflexivity.
    unfold bind at 1.
    rewrite (refresh_refused net _ rsp2) by assumption.
    cbn [sent set_sent set_authenticated user_email refresh_token].
    fold post. fold w3.
    unfold bind. destruct (request_tokens net w3) as [[[]|e|] w4]; reflexivity. }
  split; [by rewrite !Hrun|]. rewrite Hrun.
  pose proof (settles_request_tokens net w3) as Hs.
  pose proof (same_standing_request_tokens net w3) as Hf.
  unfold bind. destruct (request_tokens net w3) as [[[]|e|] w4];
    cbn [fst snd] in *; destruct Hf as [Hf1 Hf2].
  - repeat split; try done. intros r Hr. by inversion Hr.
  - repeat split; done.
  - done.
Qed.

Lemma rejected_refresh_gives_up_witness :
  get_thermostats refresh_rejected 5 sample_world
  = get_thermostats refresh_rejected 1 sample_world
  ∧ authenticated (get_thermostats refresh_rejected 1 sample_world).2 = false.
Proof.
  destruct (rejected_refresh_gives_up refresh_rejected 4 sample_world "token-1"
              (Response 401 (Some (JObj {[ "error" := JStr "authorization_expired" ]})))
              (Response 400 (Some (JObj {[ "error" := JStr "invalid_grant" ]})))
              eq_refl eq_refl ltac:(discriminate) eq_refl ltac:(discriminate))
    as (H1 & _ & _ & H4 & _).
  split; assumption.
Defined.



(** ** What no method touches *)

#[local] Instance writes_own_file_preorder : PreOrder writes_own_file.
Proof.
  split.
  - intros w. by repeat split.
  - intros x y z (E1 & P1 & B1 & F1 & H1) (E2 & P2 & B2 & F2 & H2).
    repeat split; try congruence.
    intros path Hp. rewrite H2, H1; [done|done|].
    rewrite F1, B1. exact Hp.
Qed.

Lemma config_from_file_own fn cfg w :
  ∃ fs', (config_from_file fn cfg w).2 = set_files fs' w
         ∧ ∀ path, path ≠ fn → fs' !! path = files w !! path.
Proof.
  unfold config_from_file, bind, gets, modify, ret.
  destruct (py_truthy cfg).
  - unfold fs_write. destruct (files w !! fn) as [[f| |]|] eqn:E; cbn.
    + destruct (writable f); cbn.
      * eexists. split; [reflexivity|]. intros p Hp. by rewrite lookup_insert_ne.
      * exists (files w). split; [by destruct w|done].
    + exists (files w). split; [by destruct w|done].
    + exists (files w). split; [by destruct w|done].
    + eexists. split; [reflexivity|]. intros p Hp. by rewrite lookup_insert_ne.
  - exists (files w). split; [|done].
    destruct (isfile (files w) fn); [|by destruct w].
    destruct (fs_read (files w) fn) as [t|]; [|by destruct w].
    destruct t; by destruct w.
Qed.

Lemma writes_own_file_write_tokens :
  preserves writes_own_file write_tokens_to_file.
Proof.
  intros w. unfold write_tokens_to_file, bind, gets. cbn.
  destruct (file_based_config w) eqn:Hfb.
  - destruct (config_from_file_own (config_filename w)
                (JObj (<["EMAIL" := user_email w]>
                         (<["REFRESH_TOKEN" := refresh_token w]>
                            (<["ACCESS_TOKEN" := access_token w]> ∅)))) w)
      as (fs' & Hw & Hother).
    destruct (config_from_file _ _ w) as [[r|e|] w']; cbn in Hw |- *; subst w';
      (repeat split; try done; intros p [Hp|Hp]; [by apply Hother|congruence]).
  - cbn. by repeat split.
Qed.

Section FrameOwn.

Context (R : relation world) `{!PreOrder R}.
Variable net : transport.

(** The relation is kept by the one place that persists. *)
Hypothesis R_write : preserves R write_tokens_to_file.
Hypothesis R_access : ∀ t w, R w (set_access_token t w).
Hypothesis R_refresh : ∀ t w, R w (set_refresh_token t w).
Hypothesis R_auth : ∀ b w, R w (set_authenticated b w).
Hypothesis R_sent : ∀ rq w, R w (set_sent (sent w ++ [rq]) w).
Hypothesis R_list : ∀ l w, R w (set_thermostatlist l w).
Hypothesis R_cache : ∀ c w, R w (set_thermostats c w).

Lemma own_http rq : preserves R (http net rq).
Proof. intros w. cbn. apply R_sent. Qed.

Lemma own_auth_header : preserves R auth_header.
Proof. unfold auth_header. frame. Qed.

Lemma own_request_tokens : preserves R (request_tokens net).
Proof. unfold request_tokens. frame; auto using own_http. Qed.

Lemma own_refresh_tokens : preserves R (refresh_tokens net).
Proof.
  unfold refresh_tokens. frame; auto using own_http, own_request_tokens.
Qed.

Lemma own_get_thermostat_info fuel deviceid :
  preserves R (get_thermostat_info net fuel deviceid).
Proof.
  induction fuel as [|fuel IH]; cbn [get_thermostat_info]; frame;
    auto using own_http, own_auth_header, own_refresh_tokens.
Qed.

Lemma own_get_thermostats fuel : preserves R (get_thermostats net fuel).
Proof.
  induction fuel as [|fuel IH]; cbn [get_thermostats];
    unfold for_each, get_thermostats_body, scan_cache, scan_step; frame;
    auto using own_http, own_auth_header, own_refresh_tokens,
      own_get_thermostat_info.
Qed.

Lemma own_make_request fuel index body msg retry_count :
  preserves R (make_request net fuel index body msg retry_count).
Proof.
  revert index body retry_count.
  induction fuel as [|fuel IH]; intros index body retry_count;
    cbn [make_request]; frame;
    auto using own_http, own_auth_header, own_refresh_tokens.
Qed.

Lemma own_run_command c : preserves R (run_command net c).
Proof.
  destruct c; unfold run_command;
    unfold set_hvac_mode, set_thermostat_schedule, set_fan_mode, set_fan_speed,
      set_fan_clean, set_temp_hold, set_permanent_hold, set_away, resume_program,
      set_fan_schedule, set_night_mode, set_humidity,
      set_thermostat_schedule_body, set_temp_hold_body, set_permanent_hold_body,
      set_away_body, set_humidity_body, cached;
    frame; auto using own_make_request.
Qed.

End FrameOwn.

(** X11: no method changes the email, the password or where the configuration
    lives, and the only file a method ever writes is the session's own
    configuration file: every other path holds what it held, and a session
    that is not file based writes no file at all.  This holds for the fetch,
    the commands and the token methods, whatever their outcome. *)
Theorem only_own_file_written net :
  (∀ fuel, preserves writes_own_file (get_thermostats net fuel))
  ∧ (∀ c, preserves writes_own_file (run_command net c))
  ∧ preserves writes_own_file (refresh_tokens net)
  ∧ preserves writes_own_file (request_tokens net).
Proof.
  split; [|split; [|split]]; intros;
    first [ apply own_get_thermostats | apply own_run_command
          | apply own_refresh_tokens | apply own_request_tokens ];
    try typeclasses eauto; try apply writes_own_file_write_tokens;
    intros; by repeat split.
Qed.

(** ** The [authenticated] flag *)

Lemma get_thermostat_info_auth net fuel s : ∀ w j w',
  get_thermostat_info net fuel s w = (Ret j, w') →
  j = JNull ∨ authenticated w' = true.
Proof.
  induction fuel as [|fuel IH]; intros w j w' H; [discriminate H|].
  cbn [get_thermostat_info] in H.
  apply bind_ret_inv in H as (hdr & w1 & _ & H).
  apply bind_ret_inv in H as (r & w2 & _ & H).
  destruct r as [|rsp].
  { apply ret_inv in H as [-> _]. by left. }
  destruct (status_code rsp =? 200).
  - apply bind_ret_inv in H as ([] & w3 & Hm & H). apply modify_inv in Hm as ->.
    apply lift_ret_inv in H as [_ ->]. by right.
  - apply bind_ret_inv in H as (? & w3 & _ & H).
    apply bind_ret_inv in H as (ok & w4 & _ & H).
    destruct (py_truthy ok); [by eapply IH|].
    apply ret_inv in H as [-> _]. by left.
Qed.

Lemma get_thermostats_body_auth net fuel thermostat w w' :
  get_thermostats_body net fuel thermostat w = (Ret tt, w') →
  authenticated w' = true.
Proof.
  intros H. unfold get_thermostats_body in H.
  apply bind_ret_inv in H as (tid & w0 & _ & H).
  destruct tid as [| | | |deviceid| |]; try discriminate H.
  apply bind_ret_inv in H as (got & w1 & Hgot & H).
  apply get_thermostat_info_auth in Hgot.
  apply bind_ret_inv in H as (name & w2 & Hname & H).
  apply lift_ret_inv in Hname as [_ ->].
  apply bind_ret_inv in H as (named & w2 & Hnamed & H).
  apply lift_ret_inv in Hnamed as [Hnamed ->].
  apply py_setitem_inv in Hnamed as (detail & -> & ->).
  destruct Hgot as [Hgot|Hauth]; [discriminate Hgot|].
  apply bind_ret_inv in H as (ov & w2 & Hscan & H).
  apply scan_cache_inv in Hscan as (_ & _ & ->).
  destruct ov.
  - apply ret_inv in H as [_ ->]. exact Hauth.
  - apply bind_ret_inv in H as (c & w3 & Hc & H).
    apply gets_inv in Hc as [_ ->]. apply modify_inv in H as ->. exact Hauth.
Qed.

Lemma for_each_body_auth net fuel (items : list json) : ∀ w w',
  authenticated w = true →
  for_each items (get_thermostats_body net fuel) w = (Ret tt, w') →
  authenticated w' = true.
Proof.
  unfold for_each.
  induction items as [|item items IH]; intros w w' Ha H.
  - apply ret_inv in H as [_ ->]. exact Ha.
  - cbn [for_fold] in H. apply bind_ret_inv in H as ([] & w1 & Hb & H).
    apply get_thermostats_body_auth in Hb. by eapply IH.
Qed.

(** X12: a fetch that returns the cache leaves the session authenticated, though
    a detail request on the way may have failed and been retried; a fetch
    that cannot reach the vendor returns [None] and leaves the flag, like all
    else but the log, as it was. *)
Theorem fetch_authenticates net fuel w :
  (∀ cache w', get_thermostats net fuel w = (Ret (Some cache), w') →
               authenticated w' = true)
  ∧ (∀ tok, access_token w = JStr tok →
       net (sent w) (Request GET devices_url
                       {[ "Content-Type" := "application/json;charset=UTF-8";
                          "Authorization" := "Bearer " +:+ tok ]} None)
       = ConnectionFailed →
       get_thermostats net (S fuel) w
       = (Ret None,
          set_sent (sent w ++ [Request GET devices_url
                       {[ "Content-Type" := "application/json;charset=UTF-8";
                          "Authorization" := "Bearer " +:+ tok ]} None]) w)).
Proof.
  split.
  - revert w. induction fuel as [|fuel IH]; intros w cache w' H;
      [discriminate H|].
    cbn [get_thermostats] in H.
    apply bind_ret_inv in H as (hdr & w1 & _ & H).
    apply bind_ret_inv in H as (r & w2 & _ & H).
    destruct r as [|rsp].
    { apply ret_inv in H as [H _]. discriminate H. }
    destruct (status_code rsp =? 200).
    + apply bind_ret_inv in H as ([] & w3 & Hm & H). apply modify_inv in Hm as ->.
      apply bind_ret_inv in H as (listing & w3 & Hj & H).
      apply lift_ret_inv in Hj as [_ ->].
      apply bind_ret_inv in H as ([] & w3 & Hm & H). apply modify_inv in Hm as ->.
      apply bind_ret_inv in H as (items & w3 & Hi & H).
      apply lift_ret_inv in Hi as [_ ->].
      apply bind_ret_inv in H as ([] & w3 & Hloop & H).
      apply for_each_body_auth in Hloop; [|reflexivity].
      apply bind_ret_inv in H as (c & w4 & Hg & H).
      apply gets_inv in Hg as [_ ->]. apply ret_inv in H as [_ ->]. exact Hloop.
    + apply bind_ret_inv in H as ([] & w3 & _ & H).
      apply bind_ret_inv in H as (ok & w4 & _ & H).
      destruct (py_truthy ok); [by eapply IH|].
      apply ret_inv in H as [H _]. discriminate H.
  - intros tok Htok Hnet. cbn [get_thermostats].
    erewrite bind_ret by (by apply auth_header_ok).
    erewrite bind_ret by reflexivity. rewrite Hnet. reflexivity.
Qed.

Lemma fetch_authenticates_witness :
  get_thermostats offline 1 sample_world
  = (Ret None,
     set_sent [Request GET devices_url
                 {[ "Content-Type" := "application/json;charset=UTF-8";
                    "Authorization" := "Bearer " +:+ "token-1" ]} None]
       sample_world).
Proof.
  apply (proj2 (fetch_authenticates offline 0 sample_world) "token-1");
    reflexivity.
Defined.

(** ** Entries stay *)

#[local] Instance entries_kept_preorder : PreOrder entries_kept.
Proof.
  split.
  - intros w. unfold entries_kept. reflexivity.
  - intros x y z Hxy Hyz. unfold entries_kept in *. by etransitivity.
Qed.

Lemma entries_kept_scan_step s (info : device) index ov :
  info !! "id" = Some (JStr s) →
  preserves entries_kept (scan_step s info index ov).
Proof.
  intros Hinfo w. unfold scan_step, bind, gets. cbn.
  destruct (thermostats w !! index) as [entry|] eqn:Hi; cbn; [|reflexivity].
  destruct (entry !! "id") as [eid|] eqn:He; cbn; [|reflexivity].
  destruct (str_eq s eid) eqn:Heq; cbn; [|reflexivity].
  unfold entries_kept, id_values. cbn.
  rewrite list_fmap_insert, list_insert_id; [reflexivity|].
  rewrite list_lookup_fmap, Hi. cbn. rewrite He, Hinfo. f_equal. f_equal.
  destruct eid; try discriminate. cbn in Heq. apply String.eqb_eq in Heq.
  by subst.
Qed.

Lemma entries_kept_append (info : device) :
  preserves entries_kept
    (cache <- gets thermostats ;; modify (set_thermostats (cache ++ [info]))).
Proof.
  intros w. unfold bind, gets, modify, entries_kept, id_values. cbn.
  rewrite fmap_app. by apply prefix_app_r.
Qed.

Lemma entries_kept_get_thermostat_info net fuel deviceid :
  preserves entries_kept (get_thermostat_info net fuel deviceid).
Proof.
  apply preserves_get_thermostat_info; try typeclasses eauto;
    intros; unfold entries_kept; reflexivity.
Qed.

Lemma entries_kept_refresh_tokens net :
  preserves entries_kept (refresh_tokens net).
Proof.
  apply preserves_refresh_tokens; try typeclasses eauto;
    intros; unfold entries_kept; reflexivity.
Qed.

Lemma entries_kept_body net fuel thermostat :
  preserves entries_kept (get_thermostats_body net fuel thermostat).
Proof.
  unfold get_thermostats_body, scan_cache.
  repeat first
    [ apply entries_kept_append
    | apply entries_kept_get_thermostat_info
    | apply entries_kept_scan_step; apply lookup_insert_eq
    | frame_step ].
Qed.

(** X13: whatever a fetch does -- return the cache, return [None], raise half
    way through the listing, or recurse until its fuel is spent -- every entry
    that was in the cache is still at its position with the id value it had:
    the cache only grows at its end. *)
Theorem fetch_keeps_entries net fuel w :
  id_values (thermostats w)
    `prefix_of` id_values (thermostats (get_thermostats net fuel w).2)
  ∧ (length (thermostats w)
     ≤ length (thermostats (get_thermostats net fuel w).2))%nat.
Proof.
  assert (H : preserves entries_kept (get_thermostats net fuel)).
  { induction fuel as [|fuel IH]; cbn [get_thermostats]; unfold for_each.
    - apply preserves_diverge. typeclasses eauto.
    - repeat first
        [ apply entries_kept_body
        | apply entries_kept_refresh_tokens
        | apply IH
        | apply preserves_http; intros; unfold entries_kept; reflexivity
        | apply preserves_auth_header; typeclasses eauto
        | frame_step ].
      all: unfold entries_kept; reflexivity. }
  specialize (H w). unfold entries_kept in H. split; [exact H|].
  apply prefix_length in H. unfold id_values in H.
  by rewrite !length_fmap in H.
Qed.

(** ** Reading one thermostat *)

(** X14: [get_thermostat(index)] gives the entry at [index], counted from the end
    when negative, for [-len <= index < len]; outside that range it raises
    [IndexError].  Either way the session is as it was. *)
Theorem get_thermostat_bounds (i : Z) w :
  let n := Z.of_nat (length (thermostats w)) in
  (- n ≤ i < n →
   ∃ entry, get_thermostat (JInt i) w = (Ret entry, w)
            ∧ thermostats w !! Z.to_nat (i mod n) = Some entry)
  ∧ (¬ (- n ≤ i < n) → get_thermostat (JInt i) w = (Raise IndexError, w)).
Proof.
  intros n. unfold get_thermostat, bind, gets. cbn. unfold list_getitem.
  fold n. split.
  - intros Hi. destruct (Z.leb_spec 0 i) as [H0|H0].
    + destruct (Z.ltb_spec i n) as [Hn|Hn]; [|lia]. cbn.
      rewrite Z.mod_small by lia.
      destruct (lookup_lt_is_Some_2 (thermostats w) (Z.to_nat i)) as [e He];
        [lia|].
      rewrite He. by exists e.
    + cbn. destruct (Z.leb_spec (- n) i) as [Hm|Hm]; [|lia].
      destruct (Z.ltb_spec i 0) as [Hz|Hz]; [|lia]. cbn.
      replace (i mod n) with (n + i).
      * destruct (lookup_lt_is_Some_2 (thermostats w) (Z.to_nat (n + i)))
          as [e He]; [lia|].
        rewrite He. by exists e.
      * apply Z.mod_unique with (q := -1); lia.
  - intros Hi. destruct (Z.leb_spec 0 i) as [H0|H0].
    + destruct (Z.ltb_spec i n) as [Hn|Hn]; [lia|]. cbn.
      destruct (Z.leb_spec (- n) i) as [Hm|Hm];
        destruct (Z.ltb_spec i 0) as [Hz|Hz]; cbn; try reflexivity; lia.
    + cbn. destruct (Z.leb_spec (- n) i) as [Hm|Hm]; [lia|]. reflexivity.
Qed.

Lemma get_thermostat_bounds_witness :
  ∃ entry, get_thermostat (JInt (-1)) sample_world = (Ret entry, sample_world)
           ∧ thermostats sample_world !! Z.to_nat ((-1) mod 1) = Some entry.
Proof.
  apply (proj1 (get_thermostat_bounds (-1) sample_world)). cbn. lia.
Defined.

(** ** Defaults of the away and humidity commands *)

(** X15: [set_away(index, mode)] with no temperatures sends the cached [hspAway]
    and [cspAway] rounded to one decimal, with the mode it was given;
    [set_humidity(index)] with no levels sends the cached [humSP] and
    [dehumSP] as they are.  Each fieldset is the body of the PUT sent. *)
Theorem away_and_humidity_defaults net (i : Z) w entry mode s tok
    hsp csp hsp' csp' hum dehum :
  list_getitem (thermostats w) i = Some entry →
  entry !! "id" = Some (JStr s) →
  access_token w = JStr tok →
  entry !! "hspAway" = Some hsp → py_round1 hsp = Val hsp' →
  entry !! "cspAway" = Some csp → py_round1 csp = Val csp' →
  entry !! "humSP" = Some hum →
  entry !! "dehumSP" = Some dehum →
  let away : device :=
    {[ "geofencingAway" := mode; "hspAway" := hsp'; "cspAway" := csp' ]} in
  let humidity : device := {[ "dehumSP" := dehum; "humSP" := hum ]} in
  set_away_body (JInt i) mode JNull JNull w = (Ret away, w)
  ∧ (∃ hdr, first_sent w (set_away net (JInt i) mode JNull JNull w).2
            = Some (Request PUT (device_url_prefix +:+ s) hdr (Some (JObj away))))
  ∧ set_humidity_body (JInt i) JNull JNull w = (Ret humidity, w)
  ∧ (∃ hdr, first_sent w (set_humidity net (JInt i) JNull JNull w).2
            = Some (Request PUT (device_url_prefix +:+ s) hdr
                      (Some (JObj humidity)))).
Proof.
  intros Hi Hid Htok Hh Hrh Hc Hrc Hhum Hdehum away humidity.
  assert (Haway : set_away_body (JInt i) mode JNull JNull w = (Ret away, w)).
  { unfold set_away_body, default_to.
    erewrite bind_ret; cycle 1.
    { erewrite bind_ret by (by eapply cached_ok). rewrite Hrh. reflexivity. }
    erewrite bind_ret; cycle 1.
    { erewrite bind_ret by (by eapply cached_ok). rewrite Hrc. reflexivity. }
    reflexivity. }
  assert (Hhumidity : set_humidity_body (JInt i) JNull JNull w = (Ret humidity, w)).
  { unfold set_humidity_body, default_to.
    erewrite bind_ret by (by eapply cached_ok).
    erewrite bind_ret by (by eapply cached_ok). reflexivity. }
  split; [exact Haway|]. split.
  { eexists. unfold set_away. erewrite bind_ret by exact Haway.
    eapply make_request_first_sent; eauto using py_index_int. }
  split; [exact Hhumidity|].
  eexists. unfold set_humidity. erewrite bind_ret by exact Hhumidity.
  eapply make_request_first_sent; eauto using py_index_int.
Qed.

Lemma away_and_humidity_defaults_witness :
  set_away_body (JInt 0) (JBool true) JNull JNull sample_world
  = (Ret {[ "geofencingAway" := JBool true; "hspAway" := JFloat 16.7;
            "cspAway" := JInt 28 ]}, sample_world)
  ∧ set_humidity_body (JInt 0) JNull JNull sample_world
    = (Ret {[ "dehumSP" := JInt 55; "humSP" := JInt 40 ]}, sample_world).
Proof.
  pose proof (away_and_humidity_defaults offline 0 sample_world home (JBool true)
                "0000-1111" "token-1"
                (JFloat 16.66) (JInt 28) (JFloat 16.7) (JInt 28)
                (JInt 40) (JInt 55)
                eq_refl eq_refl eq_refl eq_refl eq_refl eq_refl eq_refl
                eq_refl eq_refl) as H.
  cbv zeta in H. destruct H as (H1 & _ & H3 & _). split; assumption.
Defined.
